(** * Nexchat chat widget: a shallow embedding of [nexchat/public/js/nexchat.js]

    The widget is a browser-side controller.  Its strings are JavaScript
    strings, that is, sequences of UTF-16 code units; its state is the widget
    object ([isOpen], [isTyping]) together with the part of the document the
    widget owns.  Asynchronous code (the transport promise, timers) is modelled
    by explicit events that are applied to the state one at a time, as the
    single-threaded event loop does. *)

From Stdlib Require Import String Ascii List NArith ZArith Bool Arith Lia.
Import ListNotations.

(* ================================================================== *)
(** * JavaScript strings *)
(* ================================================================== *)

(** A UTF-16 code unit. *)
Definition char16 := N.

(** A JavaScript string value. *)
Definition jsstring := list char16.

(** An ASCII literal of the source, as a JavaScript string. *)
Definition lit (s : string) : jsstring :=
  map N_of_ascii (list_ascii_of_string s).

(** The double quote, which the source writes inside its templates. *)
Definition dq : jsstring := [34%N].

(** [a === b] on strings. *)
Fixpoint strictEq (a b : jsstring) : bool :=
  match a, b with
  | [], [] => true
  | x :: a', y :: b' => (x =? y)%N && strictEq a' b'
  | _, _ => false
  end.

(** [s.startsWith(p)]; used to define the substring search. *)
Fixpoint startsWith (p s : jsstring) : bool :=
  match p, s with
  | [], _ => true
  | _ :: _, [] => false
  | x :: p', y :: s' => (x =? y)%N && startsWith p' s'
  end.

(** [s.includes(p)]: [p] occurs in [s] as a contiguous run of code units. *)
Fixpoint includes (s p : jsstring) : bool :=
  startsWith p s ||
  match s with
  | [] => false
  | _ :: s' => includes s' p
  end.

(** The relation that [includes] decides. *)
Definition substring (p s : jsstring) : Prop :=
  exists pre post, s = pre ++ p ++ post.

(** ECMAScript LineTerminator code units: LF, CR, LS, PS. *)
Definition isLineTerminator (c : char16) : bool :=
  ((c =? 10) || (c =? 13) || (c =? 8232) || (c =? 8233))%N.

(** ECMAScript WhiteSpace or LineTerminator: what [trim] strips and what the
    regular-expression class [\s] matches. *)
Definition isWhiteSpace (c : char16) : bool :=
  ((c =? 9) || (c =? 11) || (c =? 12) || (c =? 32) || (c =? 160)
   || (c =? 5760) || ((8192 <=? c) && (c <=? 8202))
   || (c =? 8239) || (c =? 8287) || (c =? 12288) || (c =? 65279))%N
  || isLineTerminator c.

(** The regular-expression class [\d]. *)
Definition isDigit (c : char16) : bool := ((48 <=? c) && (c <=? 57))%N.

Fixpoint trimStart (s : jsstring) : jsstring :=
  match s with
  | [] => []
  | c :: t => if isWhiteSpace c then trimStart t else s
  end.

Definition trimEnd (s : jsstring) : jsstring := rev (trimStart (rev s)).

(** [s.trim()]. *)
Definition trim (s : jsstring) : jsstring := trimEnd (trimStart s).

(** Truthiness of a string: only the empty string is falsy. *)
Definition truthy (s : jsstring) : bool :=
  match s with [] => false | _ :: _ => true end.

(** [/^\d+$/.test(s)]. *)
Definition allDigits (s : jsstring) : bool :=
  truthy s && forallb isDigit s.

(** Longest prefix of [s] whose code units satisfy [f], and the rest. *)
Fixpoint span (f : char16 -> bool) (s : jsstring) : jsstring * jsstring :=
  match s with
  | [] => ([], [])
  | c :: t =>
      if f c then let (a, b) := span f t in (c :: a, b) else ([], s)
  end.

(** The lazy group [(.*?)] followed by the literal [stop]: the shortest run
    of code units other than line terminators after which [stop] starts.
    Returns the captured run and what follows [stop]. *)
Fixpoint lazyUntil (stop : jsstring) (s : jsstring)
  : option (jsstring * jsstring) :=
  if startsWith stop s then Some ([], skipn (length stop) s)
  else
    match s with
    | [] => None
    | c :: t =>
        if isLineTerminator c then None
        else
          match lazyUntil stop t with
          | Some (cap, rest) => Some (c :: cap, rest)
          | None => None
          end
    end.

(** [s.replace(re, ...)] for a global regular expression [re] all of whose
    matches are non-empty.  [m] tries the expression at the head of its
    argument and returns the replacement with the number of code units the
    match consumes.  The scan goes left to right and resumes after each match;
    [skip] counts the code units of the last match still to be passed over. *)
Fixpoint replaceAllFrom (m : jsstring -> option (jsstring * nat))
  (skip : nat) (s : jsstring) : jsstring :=
  match s with
  | [] => []
  | c :: t =>
      match skip with
      | S k => replaceAllFrom m k t
      | O =>
          match m s with
          | Some (repl, used) => repl ++ replaceAllFrom m (used - 1) t
          | None => c :: replaceAllFrom m 0 t
          end
      end
  end.

Definition replaceAll (m : jsstring -> option (jsstring * nat))
  (s : jsstring) : jsstring :=
  replaceAllFrom m 0 s.

(* ================================================================== *)
(** * Message renderer: [addMessage], [formatRoleSelectionMessage],
      [escapeHtml] *)
(* ================================================================== *)

Definition backtick : jsstring := [96%N].
Definition stars : jsstring := lit "**".

(** [escapeHtml]: the text is stored as the text content of a fresh [div] and
    read back as markup.  The HTML fragment serialisation of a text node
    replaces the ampersand, the no-break space and the two angle brackets by
    character references and leaves every other code unit as it is. *)
Definition escapeChar (c : char16) : jsstring :=
  if (c =? 38)%N then lit "&amp;"
  else if (c =? 160)%N then lit "&nbsp;"
  else if (c =? 60)%N then lit "&lt;"
  else if (c =? 62)%N then lit "&gt;"
  else [c].

Definition escapeHtml (text : jsstring) : jsstring :=
  flat_map escapeChar text.

(** The replacement of one role line: a button carrying the number, both as
    [data-number] and inside an inline [onclick] that calls [selectRole], then
    the role name in bold. *)
Definition roleButtonMarkup (number roleName : jsstring) : jsstring :=
  lit "<button class=" ++ dq ++ lit "role-button" ++ dq
  ++ lit " data-number=" ++ dq ++ number ++ dq
  ++ lit " onclick=" ++ dq ++ lit "window.nexchat.selectRole('" ++ number
  ++ lit "')" ++ dq ++ lit ">" ++ number ++ lit "</button> <strong>"
  ++ roleName ++ lit "</strong>".

(** The expression
    [/`(\d+)`\s+\*\*(.*?)\*\*/] tried at the head of [s].  Both greedy runs
    are followed by a code unit outside their class, so giving back part of a
    run never helps and the match is the one found here. *)
Definition matchRoleLine (s : jsstring) : option (jsstring * nat) :=
  if startsWith backtick s then
    let (number, r1) := span isDigit (skipn 1 s) in
    if truthy number && startsWith backtick r1 then
      let (ws, r2) := span isWhiteSpace (skipn 1 r1) in
      if truthy ws && startsWith stars r2 then
        match lazyUntil stars (skipn 2 r2) with
        | Some (roleName, _) =>
            Some (roleButtonMarkup number roleName,
                  1 + length number + 1 + length ws + 2
                  + length roleName + 2)
        | None => None
        end
      else None
    else None
  else None.

(** [/\*\*(.*?)\*\*/] with replacement ['<strong>$1</strong>']. *)
Definition matchBold (s : jsstring) : option (jsstring * nat) :=
  if startsWith stars s then
    match lazyUntil stars (skipn 2 s) with
    | Some (inner, _) =>
        Some (lit "<strong>" ++ inner ++ lit "</strong>",
              2 + length inner + 2)
    | None => None
    end
  else None.

(** [/`(.*?)`/] with replacement ['<code>$1</code>']. *)
Definition matchCode (s : jsstring) : option (jsstring * nat) :=
  if startsWith backtick s then
    match lazyUntil backtick (skipn 1 s) with
    | Some (inner, _) =>
        Some (lit "<code>" ++ inner ++ lit "</code>", 1 + length inner + 1)
    | None => None
    end
  else None.

(** [/\n/] with replacement ['<br>']. *)
Definition matchNewline (s : jsstring) : option (jsstring * nat) :=
  if startsWith [10%N] s then Some (lit "<br>", 1) else None.

Definition nl : jsstring := [10%N].
Definition indent (n : nat) : jsstring := repeat 32%N n.

(** The fixed action row appended to every role-selection block. *)
Definition actionButtons : jsstring :=
  nl ++ indent 12 ++ lit "<div class=" ++ dq ++ lit "role-action-buttons"
  ++ dq ++ lit ">" ++ nl
  ++ indent 16 ++ lit "<button class=" ++ dq ++ lit "assign-all-button" ++ dq
  ++ lit " onclick=" ++ dq ++ lit "window.nexchat.assignAllRoles()" ++ dq
  ++ lit " title=" ++ dq ++ lit "Assign ALL available roles at once" ++ dq
  ++ lit ">" ++ nl
  ++ indent 20 ++ [55357%N; 56960%N] ++ lit " Assign ALL Roles" ++ nl
  ++ indent 16 ++ lit "</button>" ++ nl
  ++ indent 16 ++ lit "<button class=" ++ dq ++ lit "cancel-button" ++ dq
  ++ lit " onclick=" ++ dq ++ lit "window.nexchat.selectRole('cancel')" ++ dq
  ++ lit " title=" ++ dq ++ lit "Cancel role assignment" ++ dq ++ lit ">"
  ++ nl
  ++ indent 20 ++ [10060%N] ++ lit " Cancel" ++ nl
  ++ indent 16 ++ lit "</button>" ++ nl
  ++ indent 12 ++ lit "</div>" ++ nl
  ++ indent 8.

Definition formatRoleSelectionMessage (text : jsstring) : jsstring :=
  let formattedText := replaceAll matchRoleLine text in
  let formattedText := replaceAll matchBold formattedText in
  let formattedText := replaceAll matchCode formattedText in
  let formattedText := replaceAll matchNewline formattedText in
  lit "<div class=" ++ dq ++ lit "role-selection-content" ++ dq ++ lit ">"
  ++ formattedText ++ actionButtons ++ lit "</div>".

(** The literal that marks a role-selection prompt. *)
Definition roleMarker : jsstring := lit "Select Role(s) for".

(** The three container markers that [addMessage] looks for. *)
Definition containerMarkers : list jsstring :=
  [ lit "<div class=" ++ dq ++ lit "nexchat-";
    lit "<div class=" ++ dq ++ lit "nexchat-options-container" ++ dq
      ++ lit ">";
    lit "<div class=" ++ dq ++ lit "nexchat-field-container" ++ dq
      ++ lit ">" ].

Definition isRoleSelection (text : jsstring) : bool :=
  includes text roleMarker && includes text backtick.

Definition isHTMLResponse (text : jsstring) : bool :=
  existsb (includes text) containerMarkers.

(** The three visual forms of a message. *)
Inductive RenderKind := Plain | RoleSelection | RawHtml.

(** The branch of the [if] / [else if] / [else] chain of [addMessage] that
    produces the content. *)
Definition renderKind (text sender : jsstring) : RenderKind :=
  if isRoleSelection text && strictEq sender (lit "bot") then RoleSelection
  else if isHTMLResponse text && strictEq sender (lit "bot") then RawHtml
  else Plain.

Definition messageContent (text sender : jsstring) : jsstring :=
  match renderKind text sender with
  | RoleSelection => formatRoleSelectionMessage text
  | RawHtml => text
  | Plain => lit "<p>" ++ escapeHtml text ++ lit "</p>"
  end.

(** A mounted message: the wrapper's classes, its initial style and its
    content. *)
Record Message := mkMessage {
  messageClass : jsstring;
  roleSelectionClass : bool;
  htmlResponseClass : bool;
  animate : bool;
  content : jsstring
}.

Definition renderMessage (text sender : jsstring) (anim : bool) : Message :=
  {| messageClass :=
       if strictEq sender (lit "user") then lit "user" else lit "bot";
     roleSelectionClass := isRoleSelection text;
     htmlResponseClass := isHTMLResponse text;
     animate := anim;
     content := messageContent text sender |}.

(* ================================================================== *)
(** * Widget state *)
(* ================================================================== *)

(** A [.nexchat-option-item] element of the document: the text of its
    [.nexchat-option-primary] and [.nexchat-option-secondary] descendants, its
    [data-value] when that is truthy, whether it is displayed ([show()] /
    [hide()]) and whether it carries the class [focused].  Items are
    identified by their position in document order. *)
Record OptionItem := mkItem {
  primaryText : jsstring;
  secondaryText : jsstring;
  dataValue : option jsstring;
  displayed : bool;
  focused : bool
}.

(** One [frappe.call]. *)
Record Call := mkCall {
  method : jsstring;
  argMessage : jsstring
}.

(** The widget object ([isOpen], [isTyping]), the elements of its panel that
    the code reads and writes, and the observable effects on the host: the
    remote calls issued, the promises not yet settled, the console log and the
    timers that will call [handleUserInput]. *)
Record State := mkState {
  isOpen : bool;
  isTyping : bool;
  widgetHidden : bool;          (* class [hidden] of [.nexchat-widget] *)
  inputValue : jsstring;        (* [#nexchat-input] *)
  inputDisabled : bool;
  sendDisabled : bool;          (* [#nexchat-send] *)
  typingShown : bool;           (* class [show] of [#nexchat-typing] *)
  messages : list Message;      (* children appended to [#nexchat-body] *)
  optionItems : list OptionItem;
  sections : list bool;         (* [expanded] of each collapsible section *)
  navListeners : nat;           (* [keydown.nexchat-nav] on the document *)
  calls : list Call;
  inFlight : nat;
  consoleErrors : list jsstring;
  autoSubmitTimers : nat
}.

Definition set_open (o h : bool) (s : State) : State :=
  mkState o (isTyping s) h (inputValue s) (inputDisabled s)
    (sendDisabled s) (typingShown s) (messages s) (optionItems s)
    (sections s) (navListeners s) (calls s) (inFlight s) (consoleErrors s)
    (autoSubmitTimers s).

Definition set_typing (b : bool) (s : State) : State :=
  mkState (isOpen s) b (widgetHidden s) (inputValue s) (inputDisabled s)
    (sendDisabled s) b (messages s) (optionItems s)
    (sections s) (navListeners s) (calls s) (inFlight s) (consoleErrors s)
    (autoSubmitTimers s).

Definition set_inputValue (v : jsstring) (s : State) : State :=
  mkState (isOpen s) (isTyping s) (widgetHidden s) v (inputDisabled s)
    (sendDisabled s) (typingShown s) (messages s) (optionItems s)
    (sections s) (navListeners s) (calls s) (inFlight s) (consoleErrors s)
    (autoSubmitTimers s).

Definition set_disabled (b : bool) (s : State) : State :=
  mkState (isOpen s) (isTyping s) (widgetHidden s) (inputValue s) b
    b (typingShown s) (messages s) (optionItems s)
    (sections s) (navListeners s) (calls s) (inFlight s) (consoleErrors s)
    (autoSubmitTimers s).

Definition set_messages (ms : list Message) (n : nat) (s : State) : State :=
  mkState (isOpen s) (isTyping s) (widgetHidden s) (inputValue s)
    (inputDisabled s) (sendDisabled s) (typingShown s) ms (optionItems s)
    (sections s) n (calls s) (inFlight s) (consoleErrors s)
    (autoSubmitTimers s).

Definition set_options (its : list OptionItem) (secs : list bool)
  (s : State) : State :=
  mkState (isOpen s) (isTyping s) (widgetHidden s) (inputValue s)
    (inputDisabled s) (sendDisabled s) (typingShown s) (messages s) its
    secs (navListeners s) (calls s) (inFlight s) (consoleErrors s)
    (autoSubmitTimers s).

Definition set_transport (cs : list Call) (n : nat) (s : State) : State :=
  mkState (isOpen s) (isTyping s) (widgetHidden s) (inputValue s)
    (inputDisabled s) (sendDisabled s) (typingShown s) (messages s)
    (optionItems s) (sections s) (navListeners s) cs n (consoleErrors s)
    (autoSubmitTimers s).

Definition set_console (es : list jsstring) (s : State) : State :=
  mkState (isOpen s) (isTyping s) (widgetHidden s) (inputValue s)
    (inputDisabled s) (sendDisabled s) (typingShown s) (messages s)
    (optionItems s) (sections s) (navListeners s) (calls s) (inFlight s) es
    (autoSubmitTimers s).

Definition set_timers (n : nat) (s : State) : State :=
  mkState (isOpen s) (isTyping s) (widgetHidden s) (inputValue s)
    (inputDisabled s) (sendDisabled s) (typingShown s) (messages s)
    (optionItems s) (sections s) (navListeners s) (calls s) (inFlight s)
    (consoleErrors s) n.

(** The widget as the constructor leaves it: closed, idle, empty panel. *)
Definition initialState : State :=
  mkState false false true [] false false false [] [] [] 0 [] 0 [] 0.

(** [toggleWidget]. *)
Definition toggleWidget (s : State) : State :=
  if isOpen s then set_open false true s else set_open true false s.

(** [addMessage]: the rendered message is appended to the body.  A text with
    a container marker also re-binds the option handlers, which leaves exactly
    one keyboard listener on the document ([addKeyboardNavigation] removes the
    old one before it adds its own). *)
Definition addMessage (text sender : jsstring) (anim : bool) (s : State)
  : State :=
  set_messages (messages s ++ [renderMessage text sender anim])
    (if isHTMLResponse text then 1 else navListeners s) s.

Definition showTyping (s : State) : State := set_typing true s.
Definition hideTyping (s : State) : State := set_typing false s.

(* ================================================================== *)
(** * Transport: [sendToBackend] *)
(* ================================================================== *)

(** The decoded payload [r.message] of a successful call, when it is truthy:
    its [response] field, if it has one. *)
Record Payload := mkPayload {
  response : option jsstring
}.

(** The JSON body [r.responseJSON] of a failed call: its [message] field, if
    it has one. *)
Record ErrorBody := mkErrorBody {
  message : option jsstring
}.

(** What the host framework hands back for one call: either it invokes
    [callback] with [r.message] (absent when falsy), or it invokes [error]
    with an optional JSON body. *)
Inductive Reply :=
| Callback (payload : option Payload)
| Failure (responseJSON : option ErrorBody).

(** How the promise of [sendToBackend] settles. *)
Inductive Settled :=
| Resolved (p : Payload)
| Rejected (errorText : jsstring).

(** The text of [new Error(m)]: [m] itself, or the empty text when [m] is
    [undefined]. *)
Definition errorText (m : option jsstring) : jsstring :=
  match m with Some t => t | None => [] end.

Definition settle (r : Reply) : Settled :=
  match r with
  | Callback (Some p) => Resolved p
  | Callback None => Rejected (lit "No response from server")
  | Failure (Some body) => Rejected (errorText (message body))
  | Failure None => Rejected (lit "Server error")
  end.

Definition processMessage : jsstring := lit "nexchat.api.process_message".

(** [sendToBackend]: one remote call, one promise to be settled later. *)
Definition sendToBackend (msg : jsstring) (s : State) : State :=
  set_transport (calls s ++ [mkCall processMessage msg]) (S (inFlight s)) s.

Definition errorNotice : jsstring :=
  lit "Sorry, I encountered an error processing your request. Please try again.".

Definition connectionNotice : jsstring :=
  lit "I apologize, but I'm having trouble connecting right now. Please check your connection and try again.".

(* ================================================================== *)
(** * Submission: [handleUserInput] and its continuations *)
(* ================================================================== *)

Definition handleUserInput (s : State) : State :=
  let userInput := trim (inputValue s) in
  if negb (truthy userInput) || isTyping s then s
  else
    let s := addMessage userInput (lit "user") true s in
    let s := set_inputValue [] s in
    let s := set_disabled true s in
    let s := showTyping s in
    sendToBackend userInput s.

(** The [then] / [catch] / [finally] chain, run when the promise settles. *)
Definition onSettled (o : Settled) (s : State) : State :=
  let s :=
    match o with
    | Resolved p =>
        let s := hideTyping s in
        match response p with
        | Some (c :: t) => addMessage (c :: t) (lit "bot") true s
        | _ => addMessage errorNotice (lit "bot") true s
        end
    | Rejected e =>
        let s := hideTyping s in
        let s := set_console (consoleErrors s ++ [e]) s in
        addMessage connectionNotice (lit "bot") true s
    end in
  set_disabled false s.

(** The host answers the call in flight. *)
Definition deliver (r : Reply) (s : State) : State :=
  match inFlight s with
  | O => s
  | S n => onSettled (settle r) (set_transport (calls s) n s)
  end.

(* ================================================================== *)
(** * Interaction dispatcher *)
(* ================================================================== *)

(** [selectRole]. *)
Definition selectRole (number : jsstring) (s : State) : State :=
  let currentValue := trim (inputValue s) in
  if negb (truthy currentValue) then set_inputValue number s
  else if includes currentValue (lit ",") || allDigits currentValue
  then set_inputValue (currentValue ++ lit "," ++ number) s
  else set_inputValue number s.

(** A click on a role button of a rendered role-selection block.  The button
    markup ([roleButtonMarkup]) has an inline [onclick] that calls
    [selectRole] with the number, and [addRoleButtonHandlers], which
    [addMessage] runs for every role-selection text, binds a click listener
    that reads [data-number] and calls [selectRole] as well; its
    [off('click')] removes only listeners bound the same way.  One click runs
    both. *)
Definition clickRoleButton (number : jsstring) (s : State) : State :=
  let s := selectRole number s in      (* inline [onclick] *)
  selectRole number s.                 (* bound click listener *)

(** A click on the cancel button, which has the inline handler only. *)
Definition clickCancel (s : State) : State := selectRole (lit "cancel") s.

(** [assignAllRoles]. *)
Definition assignAllRoles (s : State) : State :=
  handleUserInput (set_inputValue (lit "all roles") s).

(** [value.replace('_', ' ')]: the first underscore becomes a space. *)
Fixpoint replaceFirstUnderscore (v : jsstring) : jsstring :=
  match v with
  | [] => []
  | c :: t => if (c =? 95)%N then 32%N :: t else c :: replaceFirstUnderscore t
  end.

(** [selectOption]: fills the input and schedules the submission. *)
Definition selectOption (value : jsstring) (s : State) : State :=
  let value :=
    if strictEq value (lit "next_page") || strictEq value (lit "prev_page")
    then replaceFirstUnderscore value else value in
  let s := set_inputValue value s in
  set_timers (S (autoSubmitTimers s)) s.

(** The value an option item submits when clicked. *)
Definition itemValue (it : OptionItem) : jsstring :=
  match dataValue it with
  | Some v => v
  | None => trim (primaryText it)
  end.

Definition clickOptionItem (it : OptionItem) (s : State) : State :=
  selectOption (itemValue it) s.

(** A timer set by [selectOption] fires. *)
Definition autoSubmit (s : State) : State :=
  match autoSubmitTimers s with
  | O => s
  | S n => handleUserInput (set_timers n s)
  end.

(** [toggleCollapsible] on the [i]-th section. *)
Fixpoint toggleNth (i : nat) (l : list bool) : list bool :=
  match l, i with
  | [], _ => []
  | b :: t, O => negb b :: t
  | b :: t, S j => b :: toggleNth j t
  end.

Definition toggleCollapsible (i : nat) (s : State) : State :=
  set_options (optionItems s) (toggleNth i (sections s)) s.

Definition setDisplayed (b : bool) (it : OptionItem) : OptionItem :=
  mkItem (primaryText it) (secondaryText it) (dataValue it) b (focused it).

Definition setFocused (b : bool) (it : OptionItem) : OptionItem :=
  mkItem (primaryText it) (secondaryText it) (dataValue it) (displayed it) b.

Section Host.

(** [String.prototype.toLowerCase] of the host, which follows the Unicode
    case mappings. *)
Variable toLowerCase : jsstring -> jsstring.

(** The test [filterOptions] applies to one item. *)
Definition matchesQuery (searchLower : jsstring) (it : OptionItem) : bool :=
  includes (toLowerCase (primaryText it)) searchLower
  || includes (toLowerCase (secondaryText it)) searchLower.

(** [filterOptions]. *)
Definition filterOptions (searchValue : jsstring) (s : State) : State :=
  let searchLower := toLowerCase searchValue in
  let its :=
    map (fun it => setDisplayed (matchesQuery searchLower it) it)
        (optionItems s) in
  let secs :=
    if truthy (trim searchValue) then map (fun _ => true) (sections s)
    else sections s in
  set_options its secs s.

End Host.

(** A lower-casing of the ASCII letters, one admissible host function on
    ASCII texts. *)
Definition asciiLower (s : jsstring) : jsstring :=
  map (fun c => if ((65 <=? c) && (c <=? 90))%N then (c + 32)%N else c) s.

(* ================================================================== *)
(** * Keyboard navigation: the [keydown.nexchat-nav] handler *)
(* ================================================================== *)

Inductive Key := ArrowDown | ArrowUp | Enter | Escape | OtherKey.

(** Positions, counted from [k], of the items that satisfy [f]. *)
Fixpoint positionsFrom (k : nat) (f : OptionItem -> bool)
  (l : list OptionItem) : list nat :=
  match l with
  | [] => []
  | it :: t =>
      if f it then k :: positionsFrom (S k) f t else positionsFrom (S k) f t
  end.

(** [$('.nexchat-option-item:visible')]: nothing inside a hidden panel is
    visible; inside a shown panel the items not hidden by [hide()] are. *)
Definition visibleOptions (s : State) : list nat :=
  if widgetHidden s then [] else positionsFrom 0 displayed (optionItems s).

(** [$('.nexchat-option-item.focused')]. *)
Definition focusedOptions (s : State) : list nat :=
  positionsFrom 0 focused (optionItems s).

(** [collection.index(element)]: the position of the element in the
    collection, or -1. *)
Fixpoint indexIn (x : nat) (l : list nat) : Z :=
  match l with
  | [] => (-1)%Z
  | y :: t =>
      if (x =? y)%nat then 0%Z
      else let r := indexIn x t in if (r <? 0)%Z then (-1)%Z else (r + 1)%Z
  end.

Definition clearFocus (l : list OptionItem) : list OptionItem :=
  map (setFocused false) l.

(** [addClass('focused')] on the item at position [i]. *)
Fixpoint focusNth (i : nat) (l : list OptionItem) : list OptionItem :=
  match l, i with
  | [], _ => []
  | it :: t, O => setFocused true it :: t
  | it :: t, S j => it :: focusNth j t
  end.

(** What one run of the handler does: the state it leaves, whether it called
    [preventDefault], the items on which it triggered a click and the item it
    scrolled into view. *)
Record KeyEffect := mkKeyEffect {
  after : State;
  defaultPrevented : bool;
  clicked : list nat;
  scrolledIntoView : option nat
}.

Definition noEffect (s : State) : KeyEffect := mkKeyEffect s false [] None.

(** The index computed by the arrow branch. *)
Definition nextIndex (key : Key) (currentIndex len : Z) : Z :=
  match key with
  | ArrowDown => Z.rem (currentIndex + 1) len
  | _ => if (currentIndex <=? 0)%Z then (len - 1)%Z else (currentIndex - 1)%Z
  end.

Definition keydownNav (key : Key) (s : State) : KeyEffect :=
  if negb (isOpen s) then noEffect s
  else
    let visible := visibleOptions s in
    match visible with
    | [] => noEffect s
    | _ :: _ =>
        match key with
        | ArrowDown | ArrowUp =>
            let currentFocus := focusedOptions s in
            let currentIndex :=
              match currentFocus with
              | [] => (-1)%Z
              | f :: _ => indexIn f visible
              end in
            let its := clearFocus (optionItems s) in
            let currentIndex :=
              nextIndex key currentIndex (Z.of_nat (length visible)) in
            match nth_error visible (Z.to_nat currentIndex) with
            | Some target =>
                mkKeyEffect (set_options (focusNth target its) (sections s) s)
                  true [] (Some target)
            | None => mkKeyEffect (set_options its (sections s) s) true [] None
            end
        | Enter =>
            let focusedOption := focusedOptions s in
            mkKeyEffect
              (fold_left
                 (fun st i =>
                    match nth_error (optionItems s) i with
                    | Some it => clickOptionItem it st
                    | None => st
                    end)
                 focusedOption s)
              true focusedOption None
        | Escape =>
            mkKeyEffect
              (set_options (clearFocus (optionItems s)) (sections s) s)
              false [] None
        | OtherKey => noEffect s
        end
    end.

(* ================================================================== *)
(** * The widget as an event-driven machine *)
(* ================================================================== *)

Definition welcomeMessages : list jsstring :=
  [ lit "Hello! I'm Nexchat, your ERPNext AI assistant. How can I help you today?";
    lit "I can help you create documents, find information, and navigate ERPNext. What would you like to do?";
    [10024%N] ++ lit " Try asking me: 'Create a new customer' or 'Show me my sales orders'" ].

(** Everything that can run a piece of the widget's code. *)
Inductive Event :=
| EvWelcome (i : nat)             (* a welcome timer fires *)
| EvToggle                        (* toggle or close button *)
| EvEdit (v : jsstring)           (* the user edits the input field *)
| EvSubmit                        (* send button, or Enter in the field *)
| EvRoleButton (n : jsstring)
| EvCancel
| EvAssignAll
| EvOptionClick (i : nat)
| EvTimer                         (* a timer of [selectOption] fires *)
| EvCollapsible (i : nat)
| EvSearch (q : jsstring)
| EvKey (k : Key)
| EvMount (its : list OptionItem) (secs : list bool)
                                  (* a mounted fragment brings option items *)
| EvReply (r : Reply).            (* the host answers the call in flight *)

Section Machine.

Variable toLowerCase : jsstring -> jsstring.

Definition step (e : Event) (s : State) : State :=
  match e with
  | EvWelcome i =>
      match nth_error welcomeMessages i with
      | Some m => addMessage m (lit "bot") false s
      | None => s
      end
  | EvToggle => toggleWidget s
  | EvEdit v => if inputDisabled s then s else set_inputValue v s
  | EvSubmit => handleUserInput s
  | EvRoleButton n => clickRoleButton n s
  | EvCancel => clickCancel s
  | EvAssignAll => assignAllRoles s
  | EvOptionClick i =>
      match nth_error (optionItems s) i with
      | Some it => clickOptionItem it s
      | None => s
      end
  | EvTimer => autoSubmit s
  | EvCollapsible i => toggleCollapsible i s
  | EvSearch q => filterOptions toLowerCase q s
  | EvKey k => after (keydownNav k s)
  | EvMount its secs =>
      set_options (optionItems s ++ its) (sections s ++ secs) s
  | EvReply r => deliver r s
  end.

(** The events are handled one after the other, oldest first. *)
Definition run (es : list Event) (s : State) : State :=
  fold_left (fun st e => step e st) es s.

End Machine.

(* ================================================================== *)
(** * Lifecycle: [initializeNexchat], the constructor, [destroy] *)
(* ================================================================== *)

(** The page as the lifecycle code sees it.  Widget objects are numbered in
    the order of their construction; each element and listener records the
    object whose methods its handler calls. *)
Record Page := mkPage {
  sessionUser : option jsstring;    (* [frappe.session.user], if any *)
  windowNexchat : option nat;       (* the global handle [window.nexchat] *)
  toggleButtons : list nat;         (* [.nexchat-toggle] elements *)
  chatWidgets : list nat;           (* [.nexchat-widget] elements *)
  keydownNav_listeners : list nat;  (* [keydown.nexchat-nav] listeners *)
  constructed : nat                 (* widget objects built so far *)
}.

(** [frappe.session && frappe.session.user && frappe.session.user !== 'Guest']. *)
Definition loggedIn (p : Page) : bool :=
  match sessionUser p with
  | Some u => truthy u && negb (strictEq u (lit "Guest"))
  | None => false
  end.

(** [new NexchatWidget()]: [cleanup], then [init].  The object under
    construction is never the one the handle names, so [cleanup] clears a
    handle that is set. *)
Definition construct (p : Page) : nat * Page :=
  let this := constructed p in
  (this,
   mkPage (sessionUser p) None [this] [this] (keydownNav_listeners p)
     (S this)).

Definition initializeNexchat (p : Page) : Page :=
  if loggedIn p then
    match windowNexchat p, toggleButtons p ++ chatWidgets p with
    | None, [] =>
        let (this, p) := construct p in
        mkPage (sessionUser p) (Some this) (toggleButtons p) (chatWidgets p)
          (keydownNav_listeners p) (constructed p)
    | _, _ => p
    end
  else p.

(** [addKeyboardNavigation] of object [this], at page level. *)
Definition addKeyboardNavigation (this : nat) (p : Page) : Page :=
  mkPage (sessionUser p) (windowNexchat p) (toggleButtons p) (chatWidgets p)
    [this] (constructed p).

(** [destroy]. *)
Definition destroy (p : Page) : Page :=
  mkPage (sessionUser p) None [] [] [] (constructed p).

(* ================================================================== *)
(** * Properties of states, and sample states *)
(* ================================================================== *)

(** A role-selection prompt that also carries an option container. *)
Definition roleAndContainer : jsstring :=
  lit "Select Role(s) for Ann: `1` **Guest** <div class=" ++ dq
  ++ lit "nexchat-options-container" ++ dq ++ lit "></div>".

(** The guard of [handleUserInput], as a property of the state. *)
Definition submissionIgnored (s : State) : Prop :=
  isTyping s = true \/ trim (inputValue s) = [].

(** Exactly as many promises are unsettled as [isTyping] says. *)
Definition mutex (s : State) : Prop :=
  inFlight s = if isTyping s then 1 else 0.

(** A piece of code that touches neither [isTyping] nor the transport. *)
Definition leavesTransport (f : State -> State) : Prop :=
  forall s, isTyping (f s) = isTyping s /\ inFlight (f s) = inFlight s.

(** A widget waiting for an answer, with a second text typed in the field. *)
Definition busyState : State :=
  set_inputValue (lit "second")
    (handleUserInput (set_inputValue (lit "first") initialState)).

(** The rejection text as claim C4 words it: the message that the failure
    body supplies, and the default string in every other case. *)
Definition promisedRejection (r : Reply) : jsstring :=
  match r with
  | Failure (Some (mkErrorBody (Some m))) => m
  | _ => lit "Server error"
  end.

(** The bot message through which the user sees a fixed notice. *)
Definition notice (text : jsstring) : Message :=
  mkMessage (lit "bot") false false true (lit "<p>" ++ text ++ lit "</p>").

(** An idle widget with a question typed in the field. *)
Definition readyState : State :=
  set_inputValue (lit "  show my orders ") initialState.

(** No user, an empty user name, or the guest user. *)
Definition unauthenticated (p : Page) : Prop :=
  sessionUser p = None \/ sessionUser p = Some []
  \/ sessionUser p = Some (lit "Guest").

(** A page on which a logged-in user has a widget whose option handlers put
    a key listener on the document. *)
Definition livePage : Page :=
  addKeyboardNavigation 0
    (initializeNexchat (mkPage (Some (lit "Administrator")) None [] [] [] 0)).

(** Three items, the last one hidden by an earlier search, and one collapsed
    section. *)
Definition sampleItems : list OptionItem :=
  [ mkItem (lit "Sales Order") (lit "SO-0001") None true false;
    mkItem (lit "Sales Invoice") (lit "SI-0007") None true false;
    mkItem (lit "Customer") (lit "ACME") None false false ].

Definition sampleState : State :=
  set_open true false (set_options sampleItems [false] initialState).

(** The index that the arrow branch computes first. *)
Definition currentIndexOf (s : State) : Z :=
  match focusedOptions s with
  | [] => (-1)%Z
  | f :: _ => indexIn f (visibleOptions s)
  end.

Definition isArrow (key : Key) : Prop := key = ArrowDown \/ key = ArrowUp.

(** The position the arrow branch focuses. *)
Definition arrowTarget (key : Key) (s : State) : nat :=
  nth (Z.to_nat (nextIndex key (currentIndexOf s)
                   (Z.of_nat (length (visibleOptions s)))))
      (visibleOptions s) 0.

(** [n] presses of the Down key. *)
Definition pressDown (n : nat) (s : State) : State :=
  Nat.iter n (fun st => after (keydownNav ArrowDown st)) s.

(** The sample panel, closed, with its first item focused. *)
Definition closedState : State :=
  set_open false true
    (set_options
       [ mkItem (lit "Sales Order") (lit "SO-0001") None true true;
         mkItem (lit "Customer") (lit "ACME") None true false ]
       [] initialState).

(* ================================================================== *)
(** * The earlier copy of the renderer *)
(* ================================================================== *)

(** The file holds an earlier copy of the class before the one modelled
    above.  Its [addMessage] knows the role-selection block and the escaped
    paragraph only; its [formatRoleSelectionMessage] and [escapeHtml] are the
    same text as the later ones. *)
Definition messageContent_v1 (text sender : jsstring) : jsstring :=
  if isRoleSelection text && strictEq sender (lit "bot")
  then formatRoleSelectionMessage text
  else lit "<p>" ++ escapeHtml text ++ lit "</p>".

(* ================================================================== *)
(** * Vocabulary for the further properties *)
(* ================================================================== *)

(** The part of the state that clicks on rendered content, key presses and
    searches never touch. *)
Definition chrome (s : State) :=
  (isOpen s, widgetHidden s,
   (isTyping s, inputDisabled s, sendDisabled s, typingShown s),
   messages s, navListeners s, calls s, inFlight s, consoleErrors s).

(** The paragraph that shows a plain text. *)
Definition paragraph (text : jsstring) : jsstring :=
  lit "<p>" ++ escapeHtml text ++ lit "</p>".

(** The contents of the user's bubbles, oldest first. *)
Definition userBubbles (s : State) : list jsstring :=
  map content
    (filter (fun m => strictEq (messageClass m) (lit "user")) (messages s)).

(** A string made of white space only. *)
Definition blank (s : jsstring) : Prop :=
  Forall (fun c => isWhiteSpace c = true) s.

(** A string that neither starts nor ends with white space. *)
Definition tight (s : jsstring) : Prop :=
  (exists c t, s = c :: t /\ isWhiteSpace c = false)
  /\ (exists d t, rev s = d :: t /\ isWhiteSpace d = false).

(** Nothing in flight and the field open for typing. *)
Definition idle (s : State) : Prop :=
  isTyping s = false /\ inputDisabled s = false /\ inFlight s = 0.

(** One exchange as the user drives it: type, send, and the host's answer. *)
Definition exchange (tr : jsstring * Reply) : list Event :=
  [EvEdit (fst tr); EvSubmit; EvReply (snd tr)].

(** Numbers joined by commas. *)
Fixpoint joinComma (ns : list jsstring) : jsstring :=
  match ns with
  | [] => []
  | [n] => n
  | n :: rest => n ++ lit "," ++ joinComma rest
  end.


(** Code units that start none of the four conversions of
    [formatRoleSelectionMessage]: not a backtick, not a star, not a line
    feed. *)
Definition inert (c : char16) : bool :=
  negb ((c =? 96)%N || (c =? 42)%N || (c =? 10)%N).

(** As [inert], but a line feed is allowed. *)
Definition inertOrFeed (c : char16) : bool :=
  negb ((c =? 96)%N || (c =? 42)%N).

(** What the last conversion does to one code unit. *)
Definition feedToBreak (c : char16) : jsstring :=
  if (c =? 10)%N then lit "<br>" else [c].

(** One role line of a prompt, [`number` **roleName**], with the white space
    [gap] between its two parts and the text [trailer] that follows it. *)
Record RoleLine := mkRoleLine {
  number : jsstring;
  gap : jsstring;
  roleName : jsstring;
  trailer : jsstring
}.

Definition roleLineSource (l : RoleLine) : jsstring :=
  backtick ++ number l ++ backtick ++ gap l ++ stars ++ roleName l ++ stars
  ++ trailer l.

Definition roleLineRendered (l : RoleLine) : jsstring :=
  roleButtonMarkup (number l) (roleName l)
  ++ flat_map feedToBreak (trailer l).

(** A role line that the first expression matches and whose parts carry no
    further markdown. *)
Definition wellFormedRoleLine (l : RoleLine) : Prop :=
  allDigits (number l) = true
  /\ gap l <> [] /\ blank (gap l)
  /\ forallb inert (roleName l) = true
  /\ forallb (fun c => negb (isLineTerminator c)) (roleName l) = true
  /\ forallb inertOrFeed (trailer l) = true.

(** A prompt with two role lines. *)
Definition twoRoles : list RoleLine :=
  [ mkRoleLine (lit "1") (lit " ") (lit "Sales User") nl;
    mkRoleLine (lit "12") (lit "  ") (lit "Accounts Manager") [] ].

(** What holds in every state the widget can reach. *)
Definition consistent (s : State) : Prop :=
  widgetHidden s = negb (isOpen s)
  /\ (inputDisabled s = isTyping s /\ sendDisabled s = isTyping s
      /\ typingShown s = isTyping s)
  /\ navListeners s <= 1
  /\ userBubbles s = map (fun c => paragraph (argMessage c)) (calls s)
  /\ Forall (fun c => method c = processMessage /\ tight (argMessage c))
       (calls s).

(** The singleton discipline of the page: at most one toggle button, panel
    and key listener, and nodes mounted exactly when the handle is set. *)
Definition singleton (p : Page) : Prop :=
  length (keydownNav_listeners p) <= 1
  /\ match windowNexchat p with
     | Some this =>
         toggleButtons p = [this] /\ chatWidgets p = [this]
         /\ this < constructed p
     | None => toggleButtons p = [] /\ chatWidgets p = []
     end.

(** The sample panel after a search that hid its focused first item. *)
Definition hiddenFocusState : State :=
  set_open true false
    (set_options
       [ mkItem (lit "Sales Order") (lit "SO-0001") None false true;
         mkItem (lit "Sales Invoice") (lit "SI-0007") None true false;
         mkItem (lit "Customer") (lit "ACME") None true false ]
       [] initialState).


(** What can happen to the page. *)
Inductive PageEvent :=
| PageReady                 (* [ready] or [page-change]: [initializeNexchat] *)
| PageDestroy               (* [destroy] is called on a widget object *)
| PageOptions (this : nat). (* object [this] runs [addKeyboardNavigation] *)

Definition pageStep (e : PageEvent) (p : Page) : Page :=
  match e with
  | PageReady => initializeNexchat p
  | PageDestroy => destroy p
  | PageOptions this => addKeyboardNavigation this p
  end.

Definition pageRun (es : list PageEvent) (p : Page) : Page :=
  fold_left (fun q e => pageStep e q) es p.

(** A freshly loaded page: no widget, nothing mounted. *)
Definition freshPage (user : option jsstring) : Page :=
  mkPage user None [] [] [] 0.

(* ================================================================== *)
(** * Facts about strings *)
(* ================================================================== *)

Lemma strictEq_true_iff (a b : jsstring) : strictEq a b = true <-> a = b.
Proof.
  revert b; induction a as [|x a IH]; intros [|y b]; simpl;
    try (split; [discriminate | discriminate]); try tauto.
  rewrite andb_true_iff, N.eqb_eq, IH.
  split; [intros [-> ->]; reflexivity | intros H; inversion H; auto].
Qed.

Lemma strictEq_refl (a : jsstring) : strictEq a a = true.
Proof. apply strictEq_true_iff; reflexivity. Qed.

Lemma startsWith_true_iff (p s : jsstring) :
  startsWith p s = true <-> exists post, s = p ++ post.
Proof.
  revert s; induction p as [|x p IH]; intros s; simpl.
  - split; [intros _; exists s; reflexivity | reflexivity].
  - destruct s as [|y s].
    + split; [discriminate | intros [post H]; discriminate H].
    + rewrite andb_true_iff, N.eqb_eq, IH. split.
      * intros [-> [post ->]]. exists post; reflexivity.
      * intros [post H]. inversion H; subst. split; [reflexivity|].
        exists post; reflexivity.
Qed.

Lemma includes_true_iff (s p : jsstring) :
  includes s p = true <-> substring p s.
Proof.
  unfold substring. induction s as [|c s IH].
  - simpl. rewrite orb_false_r, startsWith_true_iff. split.
    + intros [post H]. exists [], post. exact H.
    + intros [pre [post H]]. destruct pre as [|x pre]; [|discriminate H].
      exists post. exact H.
  - simpl. rewrite orb_true_iff, startsWith_true_iff, IH. split.
    + intros [[post H] | [pre [post H]]].
      * exists [], post. exact H.
      * exists (c :: pre), post. simpl. rewrite H. reflexivity.
    + intros [pre [post H]]. destruct pre as [|x pre].
      * left. exists post. exact H.
      * right. simpl in H. inversion H; subst. exists pre, post. reflexivity.
Qed.

Lemma includes_false_iff (s p : jsstring) :
  includes s p = false <-> ~ substring p s.
Proof.
  rewrite <- includes_true_iff. destruct (includes s p); split; intros H;
    try reflexivity; try discriminate; try (intros H'; discriminate H').
  exfalso; apply H; reflexivity.
Qed.

(** The empty string occurs in every string. *)
Lemma includes_empty (s : jsstring) : includes s [] = true.
Proof. destruct s; reflexivity. Qed.

Lemma isRoleSelection_true_iff (text : jsstring) :
  isRoleSelection text = true <->
  substring roleMarker text /\ substring backtick text.
Proof.
  unfold isRoleSelection.
  rewrite andb_true_iff, !includes_true_iff. tauto.
Qed.

Lemma isHTMLResponse_true_iff (text : jsstring) :
  isHTMLResponse text = true <->
  exists m, In m containerMarkers /\ substring m text.
Proof.
  unfold isHTMLResponse. rewrite existsb_exists.
  split; intros [m [Hin H]]; exists m; split; auto;
    apply includes_true_iff; exact H.
Qed.

Lemma isHTMLResponse_false_iff (text : jsstring) :
  isHTMLResponse text = false <->
  forall m, In m containerMarkers -> ~ substring m text.
Proof.
  split.
  - intros H m Hin Hsub.
    assert (isHTMLResponse text = true) as E
      by (apply isHTMLResponse_true_iff; exists m; auto).
    congruence.
  - intros H. destruct (isHTMLResponse text) eqn:E; [|reflexivity].
    apply isHTMLResponse_true_iff in E. destruct E as [m [Hin Hsub]].
    exfalso. exact (H m Hin Hsub).
Qed.

Lemma isRoleSelection_false_iff (text : jsstring) :
  isRoleSelection text = false <->
  ~ (substring roleMarker text /\ substring backtick text).
Proof.
  rewrite <- isRoleSelection_true_iff.
  destruct (isRoleSelection text); split; intros H;
    try reflexivity; try discriminate; try (intros H'; discriminate H').
  exfalso; apply H; reflexivity.
Qed.

(* ================================================================== *)
(** * The renderer *)
(* ================================================================== *)

(** A role line becomes a button that carries its number twice, as
    [data-number] and inside the inline [onclick]; bold and code spans and
    line breaks are converted; the action row follows. *)
Example role_prompt_rendered :
  formatRoleSelectionMessage
    (lit "Select Role(s) for **Ann**:" ++ nl ++ lit "`3`  **Sales User**"
     ++ nl ++ lit "or type `all`")
  = lit "<div class=" ++ dq ++ lit "role-selection-content" ++ dq
    ++ lit ">Select Role(s) for <strong>Ann</strong>:<br>"
    ++ roleButtonMarkup (lit "3") (lit "Sales User")
    ++ lit "<br>or type <code>all</code>" ++ actionButtons ++ lit "</div>".
Proof. vm_compute. reflexivity. Qed.

(** A bold span does not reach across a line break, and the lazy group stops
    at the first closing pair. *)
Example bold_spans :
  replaceAll matchBold (lit "**a" ++ nl ++ lit "b** **c**d**")
  = lit "**a" ++ nl ++ lit "b<strong> </strong>c<strong>d</strong>".
Proof. vm_compute. reflexivity. Qed.

Example trim_strips_both_ends :
  trim ([160%N; 9%N] ++ lit " 3, 4 " ++ nl) = lit "3, 4".
Proof. vm_compute. reflexivity. Qed.

Example pagination_values :
  inputValue (selectOption (lit "next_page") initialState) = lit "next page"
  /\ inputValue (selectOption (lit "prev_page") initialState)
     = lit "prev page"
  /\ inputValue (selectOption (lit "SO_001") initialState) = lit "SO_001".
Proof. repeat split. Qed.

(** [escapeHtml] leaves no angle bracket in its result. *)
Lemma escapeChar_no_angle (c x : char16) :
  In x (escapeChar c) -> x <> 60%N /\ x <> 62%N.
Proof.
  unfold escapeChar.
  destruct (N.eqb_spec c 38); [vm_compute; intuition (subst; discriminate)|].
  destruct (N.eqb_spec c 160); [vm_compute; intuition (subst; discriminate)|].
  destruct (N.eqb_spec c 60); [vm_compute; intuition (subst; discriminate)|].
  destruct (N.eqb_spec c 62); [vm_compute; intuition (subst; discriminate)|].
  simpl. intros [<- | []]. split; assumption.
Qed.

Lemma escapeHtml_no_angle (text : jsstring) (x : char16) :
  In x (escapeHtml text) -> x <> 60%N /\ x <> 62%N.
Proof.
  unfold escapeHtml. rewrite in_flat_map.
  intros [c [_ H]]. exact (escapeChar_no_angle c x H).
Qed.

(** Every code unit other than the four the serialiser rewrites is kept. *)
Lemma escapeChar_other (c : char16) :
  c <> 38%N -> c <> 160%N -> c <> 60%N -> c <> 62%N -> escapeChar c = [c].
Proof.
  intros H1 H2 H3 H4. unfold escapeChar.
  destruct (N.eqb_spec c 38); [contradiction|].
  destruct (N.eqb_spec c 160); [contradiction|].
  destruct (N.eqb_spec c 60); [contradiction|].
  destruct (N.eqb_spec c 62); [contradiction|].
  reflexivity.
Qed.

Lemma renderKind_user (text : jsstring) : renderKind text (lit "user") = Plain.
Proof.
  unfold renderKind.
  replace (strictEq (lit "user") (lit "bot")) with false by reflexivity.
  rewrite !andb_false_r. reflexivity.
Qed.

Lemma renderKind_bot (text : jsstring) :
  renderKind text (lit "bot") =
  if isRoleSelection text then RoleSelection
  else if isHTMLResponse text then RawHtml else Plain.
Proof.
  unfold renderKind.
  replace (strictEq (lit "bot") (lit "bot")) with true by reflexivity.
  rewrite !andb_true_r. reflexivity.
Qed.

Lemma renderKind_not_plain (text sender : jsstring) :
  renderKind text sender <> Plain -> sender = lit "bot".
Proof.
  unfold renderKind. intros H.
  destruct (strictEq sender (lit "bot")) eqn:E.
  - apply strictEq_true_iff; exact E.
  - rewrite !andb_false_r in H. contradiction.
Qed.

(** C1. A text rendered through the plain path -- sender ['user'], or sender
    ['bot'] with a text that has neither both role-selection markers nor a
    container marker -- becomes a paragraph holding the text in which the
    ampersand, the angle brackets and the no-break space are replaced by
    their character references ([&amp;], [&lt;], [&gt;], [&nbsp;]) and every
    other code unit is kept; no angle bracket of the text reaches the
    content. *)
Theorem plain_path_escapes (text sender : jsstring) (anim : bool) :
  sender = lit "user" \/
  (sender = lit "bot"
   /\ ~ (substring roleMarker text /\ substring backtick text)
   /\ (forall m, In m containerMarkers -> ~ substring m text)) ->
  renderKind text sender = Plain
  /\ content (renderMessage text sender anim)
     = lit "<p>" ++ flat_map escapeChar text ++ lit "</p>"
  /\ escapeChar 38%N = lit "&amp;" /\ escapeChar 60%N = lit "&lt;"
  /\ escapeChar 62%N = lit "&gt;" /\ escapeChar 160%N = lit "&nbsp;"
  /\ (forall c, c <> 38%N -> c <> 160%N -> c <> 60%N -> c <> 62%N ->
                escapeChar c = [c])
  /\ (forall x, In x (flat_map escapeChar text) -> x <> 60%N /\ x <> 62%N).
Proof.
  intros H.
  assert (renderKind text sender = Plain) as K.
  { destruct H as [-> | [-> [Hr Hh]]].
    - apply renderKind_user.
    - rewrite renderKind_bot.
      apply isRoleSelection_false_iff in Hr.
      apply isHTMLResponse_false_iff in Hh.
      rewrite Hr, Hh. reflexivity. }
  split; [exact K|].
  split; [simpl; unfold messageContent; rewrite K; reflexivity|].
  repeat (split; [reflexivity|]).
  split; [exact escapeChar_other|].
  exact (escapeHtml_no_angle text).
Qed.

Lemma plain_path_escapes_witness :
  content (renderMessage (lit "<b>1 & 2</b>") (lit "user") true)
  = lit "<p>&lt;b&gt;1 &amp; 2&lt;/b&gt;</p>".
Proof.
  exact (proj1 (proj2
    (plain_path_escapes (lit "<b>1 & 2</b>") (lit "user") true
       (or_introl eq_refl)))).
Defined.

(** C2. For a bot response the classification is ordered, first match wins:
    a text with the role-selection marker and a backtick is rendered as a
    role-selection block, whether or not it also has a container marker; a
    text that fails that test and has a container marker is mounted as raw
    markup; every other text is rendered as an escaped paragraph. *)
Theorem classification_first_match (text : jsstring) :
  (substring roleMarker text /\ substring backtick text ->
     renderKind text (lit "bot") = RoleSelection
     /\ messageContent text (lit "bot") = formatRoleSelectionMessage text)
  /\ (~ (substring roleMarker text /\ substring backtick text) ->
      (exists m, In m containerMarkers /\ substring m text) ->
     renderKind text (lit "bot") = RawHtml
     /\ messageContent text (lit "bot") = text)
  /\ (~ (substring roleMarker text /\ substring backtick text) ->
      (forall m, In m containerMarkers -> ~ substring m text) ->
     renderKind text (lit "bot") = Plain
     /\ messageContent text (lit "bot")
        = lit "<p>" ++ escapeHtml text ++ lit "</p>").
Proof.
  unfold messageContent. rewrite renderKind_bot.
  split; [|split].
  - intros H. apply isRoleSelection_true_iff in H. rewrite H. auto.
  - intros Hr Hh. apply isRoleSelection_false_iff in Hr.
    apply isHTMLResponse_true_iff in Hh. rewrite Hr, Hh. auto.
  - intros Hr Hh. apply isRoleSelection_false_iff in Hr.
    apply isHTMLResponse_false_iff in Hh. rewrite Hr, Hh. auto.
Qed.

Lemma classification_first_match_witness :
  (substring roleMarker roleAndContainer
   /\ substring backtick roleAndContainer)
  /\ (exists m, In m containerMarkers /\ substring m roleAndContainer)
  /\ renderKind roleAndContainer (lit "bot") = RoleSelection
  /\ messageContent roleAndContainer (lit "bot")
     = formatRoleSelectionMessage roleAndContainer.
Proof.
  assert (substring roleMarker roleAndContainer
          /\ substring backtick roleAndContainer) as H
    by (apply isRoleSelection_true_iff; vm_compute; reflexivity).
  split; [exact H|].
  split; [apply isHTMLResponse_true_iff; vm_compute; reflexivity|].
  exact (proj1 (classification_first_match roleAndContainer) H).
Defined.

(** The wrapper of a message takes its two marker classes from the text
    alone, whatever branch produced the content. *)
Lemma wrapper_classes_follow_text (text sender : jsstring) (anim : bool) :
  roleSelectionClass (renderMessage text sender anim) = isRoleSelection text
  /\ htmlResponseClass (renderMessage text sender anim) = isHTMLResponse text.
Proof. split; reflexivity. Qed.

(** C9. A message whose sender is ['user'] always takes the escaping plain
    path, whatever markers its text contains; the two branches that mount
    unescaped markup are taken only when the sender is ['bot']. *)
Theorem user_text_always_escaped (text sender : jsstring) :
  (sender = lit "user" ->
     renderKind text sender = Plain
     /\ messageContent text sender
        = lit "<p>" ++ escapeHtml text ++ lit "</p>")
  /\ (renderKind text sender = RoleSelection \/
      renderKind text sender = RawHtml -> sender = lit "bot").
Proof.
  split.
  - intros ->. unfold messageContent. rewrite renderKind_user. auto.
  - intros H. apply (renderKind_not_plain text).
    destruct H as [H | H]; rewrite H; discriminate.
Qed.

Lemma user_text_always_escaped_witness :
  renderKind roleAndContainer (lit "user") = Plain
  /\ messageContent roleAndContainer (lit "user")
     = lit "<p>" ++ escapeHtml roleAndContainer ++ lit "</p>".
Proof.
  exact (proj1 (user_text_always_escaped roleAndContainer (lit "user"))
           eq_refl).
Defined.

(* ================================================================== *)
(** * Submission and transport *)
(* ================================================================== *)

Lemma handleUserInput_ignored (s : State) :
  submissionIgnored s -> handleUserInput s = s.
Proof.
  unfold handleUserInput. intros [H | H]; rewrite H.
  - rewrite orb_true_r. reflexivity.
  - reflexivity.
Qed.

Lemma handleUserInput_accepted (s : State) :
  isTyping s = false -> truthy (trim (inputValue s)) = true ->
  handleUserInput s =
  sendToBackend (trim (inputValue s))
    (showTyping (set_disabled true (set_inputValue []
       (addMessage (trim (inputValue s)) (lit "user") true s)))).
Proof.
  unfold handleUserInput. intros -> ->. reflexivity.
Qed.

Lemma leavesTransport_mutex (f : State -> State) (s : State) :
  leavesTransport f -> mutex s -> mutex (f s).
Proof.
  unfold mutex. intros Hf H. destruct (Hf s) as [-> ->]. exact H.
Qed.

Lemma handleUserInput_mutex (s : State) :
  mutex s -> mutex (handleUserInput s).
Proof.
  unfold mutex, handleUserInput. intros H.
  destruct (truthy (trim (inputValue s))); simpl; [|exact H].
  destruct (isTyping s) eqn:E; simpl.
  - rewrite E. exact H.
  - rewrite H. reflexivity.
Qed.

Lemma onSettled_idle (o : Settled) (s : State) :
  isTyping (onSettled o s) = false
  /\ inFlight (onSettled o s) = inFlight s
  /\ calls (onSettled o s) = calls s
  /\ inputDisabled (onSettled o s) = false
  /\ sendDisabled (onSettled o s) = false.
Proof.
  destruct o as [[[[|c t]|]]|e]; simpl; auto.
Qed.

Lemma deliver_mutex (r : Reply) (s : State) :
  mutex s -> mutex (deliver r s).
Proof.
  unfold mutex, deliver. intros H.
  destruct (inFlight s) as [|n] eqn:E; [rewrite E; exact H|].
  destruct (onSettled_idle (settle r) (set_transport (calls s) n s))
    as [-> [-> _]].
  simpl. destruct (isTyping s); congruence.
Qed.

Lemma selectRole_leaves (n : jsstring) : leavesTransport (selectRole n).
Proof.
  intros s. unfold selectRole.
  destruct (negb (truthy (trim (inputValue s)))); [simpl; auto|].
  destruct (includes (trim (inputValue s)) (lit ",")
            || allDigits (trim (inputValue s))); simpl; auto.
Qed.

Lemma selectOption_leaves (v : jsstring) : leavesTransport (selectOption v).
Proof. intros s. unfold selectOption. simpl. auto. Qed.

Lemma fold_clicks_leaves (its : list OptionItem) (l : list nat) :
  leavesTransport
    (fun s =>
       fold_left
         (fun st i =>
            match nth_error its i with
            | Some it => clickOptionItem it st
            | None => st
            end) l s).
Proof.
  induction l as [|i l IH]; intros s; simpl; [auto|].
  destruct (IH (match nth_error its i with
                | Some it => clickOptionItem it s
                | None => s
                end)) as [-> ->].
  destruct (nth_error its i); [apply selectOption_leaves | auto].
Qed.

Lemma keydownNav_leaves (k : Key) :
  leavesTransport (fun s => after (keydownNav k s)).
Proof.
  intros s. unfold keydownNav.
  destruct (negb (isOpen s)); [simpl; auto|].
  destruct (visibleOptions s) as [|v vs]; [simpl; auto|].
  destruct k; simpl; auto.
  - destruct (nth_error (v :: vs) _); simpl; auto.
  - destruct (nth_error (v :: vs) _); simpl; auto.
  - apply (fold_clicks_leaves (optionItems s) (focusedOptions s) s).
Qed.

Section MachineFacts.

Variable toLowerCase : jsstring -> jsstring.

Lemma step_mutex (e : Event) (s : State) :
  mutex s -> mutex (step toLowerCase e s).
Proof.
  intros H. destruct e; simpl.
  - destruct (nth_error welcomeMessages i); [exact H | exact H].
  - unfold toggleWidget. destruct (isOpen s); exact H.
  - destruct (inputDisabled s); exact H.
  - apply handleUserInput_mutex; exact H.
  - unfold clickRoleButton.
    apply (leavesTransport_mutex _ _ (selectRole_leaves n)).
    apply (leavesTransport_mutex _ _ (selectRole_leaves n)). exact H.
  - apply (leavesTransport_mutex _ _ (selectRole_leaves _)). exact H.
  - unfold assignAllRoles. apply handleUserInput_mutex. exact H.
  - destruct (nth_error (optionItems s) i); [|exact H].
    apply (leavesTransport_mutex _ _ (selectOption_leaves _)). exact H.
  - unfold autoSubmit. destruct (autoSubmitTimers s); [exact H|].
    apply handleUserInput_mutex. exact H.
  - exact H.
  - exact H.
  - apply (leavesTransport_mutex _ _ (keydownNav_leaves k)). exact H.
  - exact H.
  - apply deliver_mutex; exact H.
Qed.

Lemma run_mutex (es : list Event) (s : State) :
  mutex s -> mutex (run toLowerCase es s).
Proof.
  revert s. induction es as [|e es IH]; intros s H; simpl; [exact H|].
  apply IH. apply step_mutex. exact H.
Qed.

(** C3. A submission made while [isTyping] is true, or with an input that
    is empty once trimmed, is ignored: the state is left as it was, so no
    remote call is issued and no message is appended.  Hence, whatever
    events the widget handles from its initial state, at most one request
    is in flight. *)
Theorem submit_guard (s : State) :
  (submissionIgnored s ->
     handleUserInput s = s
     /\ calls (handleUserInput s) = calls s
     /\ inFlight (handleUserInput s) = inFlight s
     /\ messages (handleUserInput s) = messages s)
  /\ (forall es, inFlight (run toLowerCase es initialState) <= 1).
Proof.
  split.
  - intros H. rewrite (handleUserInput_ignored s H). auto.
  - intros es.
    assert (mutex (run toLowerCase es initialState)) as M
      by (apply run_mutex; reflexivity).
    unfold mutex in M. rewrite M.
    destruct (isTyping (run toLowerCase es initialState)); lia.
Qed.

End MachineFacts.

Lemma submit_guard_witness :
  submissionIgnored busyState
  /\ handleUserInput busyState = busyState
  /\ calls (handleUserInput busyState) = [mkCall processMessage (lit "first")].
Proof.
  assert (submissionIgnored busyState) as H by (left; reflexivity).
  split; [exact H|].
  destruct (proj1 (submit_guard asciiLower busyState) H) as [E [C _]].
  split; [exact E|].
  rewrite C. reflexivity.
Defined.

(** Counterexample to C4 as stated.  The promise also rejects when the
    callback carries no payload, and then with a text of its own, not with
    the default string; and for a failure body without a [message] field the
    error text is empty. *)
Lemma rejection_default_counterexample :
  (settle (Callback None) = Rejected (lit "No response from server")
   /\ settle (Callback None) <> Rejected (promisedRejection (Callback None)))
  /\ (settle (Failure (Some (mkErrorBody None))) = Rejected []
      /\ settle (Failure (Some (mkErrorBody None)))
         <> Rejected (promisedRejection (Failure (Some (mkErrorBody None))))).
Proof.
  split; split; [reflexivity | discriminate | reflexivity | discriminate].
Qed.

Lemma notice_rendered :
  renderMessage errorNotice (lit "bot") true = notice errorNotice
  /\ renderMessage connectionNotice (lit "bot") true = notice connectionNotice.
Proof. split; vm_compute; reflexivity. Qed.

Lemma deliver_failure (r : Reply) (e : jsstring) (s : State) (n : nat) :
  inFlight s = S n -> settle r = Rejected e ->
  deliver r s =
  set_disabled false
    (addMessage connectionNotice (lit "bot") true
       (set_console (consoleErrors s ++ [e])
          (hideTyping (set_transport (calls s) n s)))).
Proof.
  unfold deliver, onSettled. intros -> ->. reflexivity.
Qed.

(** C4 (amended). For every accepted submission exactly one remote call is
    issued, to the fixed procedure with the trimmed text, and no reply causes
    another.  When the promise is rejected -- the host reports a failure, or
    its callback carries no payload -- the user sees the fixed connection
    notice; when the payload lacks a (non-empty) [response] field the user
    sees the fixed error notice; in every case the input and the send button
    are enabled again.  The promise rejects with the message that the
    failure body supplies when it supplies one, with ['Server error'] when
    the failure has no body, and with ['No response from server'] when the
    callback carries no payload. *)
Theorem submission_outcomes (s : State) :
  isTyping s = false -> truthy (trim (inputValue s)) = true ->
  let s1 := handleUserInput s in
  calls s1 = calls s ++ [mkCall processMessage (trim (inputValue s))]
  /\ inFlight s1 = S (inFlight s)
  /\ messages s1
     = messages s ++ [renderMessage (trim (inputValue s)) (lit "user") true]
  /\ (forall r,
        let s2 := deliver r s1 in
        calls s2 = calls s1
        /\ inFlight s2 = inFlight s
        /\ isTyping s2 = false
        /\ inputDisabled s2 = false /\ sendDisabled s2 = false
        /\ (forall e, settle r = Rejected e ->
              messages s2 = messages s1 ++ [notice connectionNotice]
              /\ consoleErrors s2 = consoleErrors s1 ++ [e])
        /\ (forall p, settle r = Resolved p ->
              response p = None \/ response p = Some [] ->
              messages s2 = messages s1 ++ [notice errorNotice])
        /\ (forall p c t, settle r = Resolved p ->
              response p = Some (c :: t) ->
              messages s2
              = messages s1 ++ [renderMessage (c :: t) (lit "bot") true]))
  /\ (forall m body, message body = Some m ->
        settle (Failure (Some body)) = Rejected m)
  /\ settle (Failure None) = Rejected (lit "Server error")
  /\ settle (Callback None) = Rejected (lit "No response from server")
  /\ (forall p, settle (Callback (Some p)) = Resolved p).
Proof.
  intros Hty Htr s1.
  assert (s1 = sendToBackend (trim (inputValue s))
                 (showTyping (set_disabled true (set_inputValue []
                    (addMessage (trim (inputValue s)) (lit "user") true s)))))
    as E1 by (apply handleUserInput_accepted; assumption).
  split; [rewrite E1; reflexivity|].
  split; [rewrite E1; reflexivity|].
  split; [rewrite E1; reflexivity|].
  split.
  { intros r s2.
    assert (inFlight s1 = S (inFlight s)) as F by (rewrite E1; reflexivity).
    assert (s2 = onSettled (settle r)
                   (set_transport (calls s1) (inFlight s) s1)) as E2
      by (unfold s2, deliver; rewrite F; reflexivity).
    destruct (onSettled_idle (settle r)
                (set_transport (calls s1) (inFlight s) s1))
      as [I1 [I2 [I3 [I4 I5]]]].
    rewrite <- E2 in I1, I2, I3, I4, I5.
    split; [exact I3|]. split; [exact I2|]. split; [exact I1|].
    split; [exact I4|]. split; [exact I5|].
    destruct notice_rendered as [Nerr Ncon].
    split; [|split].
    - intros e He. rewrite E2, He. simpl. rewrite Ncon. auto.
    - intros p Hp Hresp. rewrite E2, Hp. simpl.
      destruct Hresp as [-> | ->]; simpl; rewrite Nerr; reflexivity.
    - intros p c t Hp Hresp. rewrite E2, Hp. simpl. rewrite Hresp.
      reflexivity. }
  split; [intros m body H; simpl; rewrite H; reflexivity|].
  auto.
Qed.

Lemma submission_outcomes_witness :
  (isTyping readyState = false
   /\ truthy (trim (inputValue readyState)) = true)
  /\ calls (handleUserInput readyState)
     = [mkCall processMessage (lit "show my orders")]
  /\ calls (deliver (Failure None) (handleUserInput readyState))
     = calls (handleUserInput readyState).
Proof.
  split; [split; reflexivity|].
  destruct (submission_outcomes readyState eq_refl eq_refl)
    as [C [_ [_ [D _]]]].
  split; [exact C|].
  exact (proj1 (D (Failure None))).
Defined.

(* ================================================================== *)
(** * Lifecycle *)
(* ================================================================== *)

Lemma unauthenticated_loggedIn (p : Page) :
  unauthenticated p -> loggedIn p = false.
Proof.
  unfold loggedIn. intros [-> | [-> | ->]]; reflexivity.
Qed.

Lemma initializeNexchat_existing (p : Page) :
  windowNexchat p <> None \/ toggleButtons p ++ chatWidgets p <> [] ->
  initializeNexchat p = p.
Proof.
  unfold initializeNexchat. intros H.
  destruct (loggedIn p); [|reflexivity].
  destruct (windowNexchat p) as [w|]; [reflexivity|].
  destruct (toggleButtons p ++ chatWidgets p); [|reflexivity].
  destruct H as [H | H]; contradiction H; reflexivity.
Qed.

(** C5. Initialisation does nothing when the handle already names an
    instance (or widget nodes are still mounted) and when the user is not
    logged in or is the guest.  [destroy] removes every toggle button and
    panel, clears the handle and removes the document-level key listener;
    the next initialisation for a logged-in user then builds exactly one new
    instance, with one toggle button and one panel, and a further
    initialisation adds nothing. *)
Theorem lifecycle_singleton (p : Page) :
  (windowNexchat p <> None \/ toggleButtons p ++ chatWidgets p <> []
   \/ unauthenticated p -> initializeNexchat p = p)
  /\ (toggleButtons (destroy p) = [] /\ chatWidgets (destroy p) = []
      /\ windowNexchat (destroy p) = None
      /\ keydownNav_listeners (destroy p) = []
      /\ constructed (destroy p) = constructed p)
  /\ (loggedIn p = true ->
      let q := initializeNexchat (destroy p) in
      windowNexchat q = Some (constructed p)
      /\ constructed q = S (constructed p)
      /\ toggleButtons q = [constructed p]
      /\ chatWidgets q = [constructed p]
      /\ keydownNav_listeners q = []
      /\ initializeNexchat q = q).
Proof.
  split; [|split].
  - intros [H | [H | H]].
    + apply initializeNexchat_existing; auto.
    + apply initializeNexchat_existing; auto.
    + unfold initializeNexchat.
      rewrite (unauthenticated_loggedIn p H). reflexivity.
  - repeat split.
  - intros L q.
    assert (q = mkPage (sessionUser p) (Some (constructed p))
                  [constructed p] [constructed p] [] (S (constructed p)))
      as E.
    { unfold q, initializeNexchat.
      replace (loggedIn (destroy p)) with true by (symmetry; exact L).
      reflexivity. }
    rewrite E. repeat (split; [reflexivity|]).
    apply initializeNexchat_existing. left. discriminate.
Qed.

Lemma lifecycle_singleton_witness :
  (windowNexchat livePage <> None /\ initializeNexchat livePage = livePage)
  /\ loggedIn livePage = true
  /\ keydownNav_listeners livePage = [0]
  /\ keydownNav_listeners (destroy livePage) = []
  /\ toggleButtons (initializeNexchat (destroy livePage)) = [1]
  /\ chatWidgets (initializeNexchat (destroy livePage)) = [1]
  /\ windowNexchat (initializeNexchat (destroy livePage)) = Some 1.
Proof.
  assert (windowNexchat livePage <> None) as H by discriminate.
  destruct (lifecycle_singleton livePage) as [A [B C]].
  split; [split; [exact H | exact (A (or_introl H))]|].
  split; [reflexivity|].
  split; [reflexivity|].
  split; [exact (proj1 (proj2 (proj2 (proj2 B))))|].
  destruct (C eq_refl) as [W [_ [T [P _]]]].
  split; [exact T|]. split; [exact P | exact W].
Defined.

(* ================================================================== *)
(** * Role buttons *)
(* ================================================================== *)

Lemma truthy_false_iff (s : jsstring) : truthy s = false <-> s = [].
Proof. destruct s; simpl; split; congruence. Qed.

Lemma allDigits_true_iff (s : jsstring) :
  allDigits s = true <-> s <> [] /\ Forall (fun c => isDigit c = true) s.
Proof.
  unfold allDigits. rewrite andb_true_iff, forallb_forall, Forall_forall.
  destruct s; simpl; intuition congruence.
Qed.

(** One call of [selectRole] does what the comments in its body say: it
    fills an empty field, appends to a comma list or a bare number, and
    replaces anything else; it changes nothing but the field. *)
Lemma selectRole_once (number : jsstring) (s : State) :
  let cur := trim (inputValue s) in
  selectRole number s = set_inputValue (inputValue (selectRole number s)) s
  /\ (cur = [] -> inputValue (selectRole number s) = number)
  /\ (cur <> [] ->
      substring (lit ",") cur \/ Forall (fun c => isDigit c = true) cur ->
      inputValue (selectRole number s) = cur ++ lit "," ++ number)
  /\ (cur <> [] ->
      ~ substring (lit ",") cur ->
      ~ Forall (fun c => isDigit c = true) cur ->
      inputValue (selectRole number s) = number).
Proof.
  intros cur. unfold selectRole. fold cur.
  destruct (truthy cur) eqn:T; simpl.
  - assert (cur <> []) as Hne by (intros E; rewrite E in T; discriminate).
    destruct (includes cur (lit ",")) eqn:I; simpl.
    + split; [reflexivity|]. split; [contradiction|]. split; [reflexivity|].
      intros _ H. apply includes_true_iff in I. contradiction.
    + destruct (allDigits cur) eqn:D; simpl.
      * split; [reflexivity|]. split; [contradiction|].
        split; [reflexivity|].
        intros _ _ H. apply allDigits_true_iff in D. tauto.
      * split; [reflexivity|]. split; [contradiction|].
        split; [|reflexivity].
        intros _ [H | H].
        -- apply includes_true_iff in H. congruence.
        -- assert (allDigits cur = true) as D'
             by (apply allDigits_true_iff; auto).
           congruence.
  - apply truthy_false_iff in T. rewrite T.
    split; [reflexivity|]. split; [reflexivity|].
    split; intros H; contradiction H; reflexivity.
Qed.

Lemma digit_not_space (c : char16) :
  isDigit c = true -> isWhiteSpace c = false.
Proof.
  unfold isDigit, isWhiteSpace, isLineTerminator.
  rewrite andb_true_iff, !N.leb_le. intros [H1 H2].
  repeat rewrite orb_false_iff.
  repeat split; try (apply N.eqb_neq; lia).
  apply andb_false_iff. left. apply N.leb_gt. lia.
Qed.

Lemma trimStart_digits (n : jsstring) :
  Forall (fun c => isDigit c = true) n -> trimStart n = n.
Proof.
  destruct n as [|c t]; [reflexivity|]. intros H. inversion H; subst.
  simpl. rewrite digit_not_space by assumption. reflexivity.
Qed.

Lemma trim_digits (n : jsstring) :
  Forall (fun c => isDigit c = true) n -> trim n = n.
Proof.
  intros H. unfold trim, trimEnd. rewrite (trimStart_digits n H).
  rewrite trimStart_digits by (apply Forall_rev; exact H).
  apply rev_involutive.
Qed.

(** Whatever number the button carries, a click on it with the field empty
    leaves the number twice, joined by a comma. *)
Lemma clickRoleButton_empty_field (n : jsstring) (s : State) :
  allDigits n = true -> trim (inputValue s) = [] ->
  inputValue (clickRoleButton n s) = n ++ lit "," ++ n.
Proof.
  intros Hn He. apply allDigits_true_iff in Hn. destruct Hn as [Hne Hd].
  unfold clickRoleButton.
  destruct (selectRole_once n s) as [_ [E1 _]]. specialize (E1 He).
  destruct (selectRole_once n (selectRole n s)) as [_ [_ [E2 _]]].
  rewrite E1, (trim_digits n Hd) in E2.
  apply E2; [exact Hne | right; exact Hd].
Qed.

(** C6. The code at the failing inputs: a click on a role button runs
    [selectRole] twice (inline [onclick], then the bound listener), so the
    number is entered twice: clicking 3 on an empty field leaves [3,3], and
    clicking 5 when the field holds [3] leaves [3,5,5].  The click does not
    submit. *)
Theorem role_button_click_enters_number_twice :
  inputValue (clickRoleButton (lit "3") initialState) = lit "3,3"
  /\ inputValue
       (clickRoleButton (lit "5") (set_inputValue (lit "3") initialState))
     = lit "3,5,5"
  /\ inputValue
       (clickRoleButton (lit "2") (set_inputValue (lit "7") initialState))
     = lit "7,2,2"
  /\ inputValue (selectRole (lit "3") initialState) = lit "3"
  /\ calls (clickRoleButton (lit "3") initialState) = []
  /\ messages (clickRoleButton (lit "3") initialState) = [].
Proof.
  repeat split; vm_compute; reflexivity.
Qed.

(* ================================================================== *)
(** * Filtering *)
(* ================================================================== *)

Section FilterFacts.

Variable toLowerCase : jsstring -> jsstring.

Lemma matchesQuery_true_iff (q : jsstring) (it : OptionItem) :
  matchesQuery toLowerCase q it = true <->
  substring q (toLowerCase (primaryText it))
  \/ substring q (toLowerCase (secondaryText it)).
Proof.
  unfold matchesQuery. rewrite orb_true_iff, !includes_true_iff. tauto.
Qed.

(** C8. After [filterOptions] with query [q], every option item is still
    in the document with its texts, and it is displayed exactly when the
    lower-cased query is a substring of its lower-cased primary or
    secondary text.  If no item matches, all are hidden (the function is
    total: nothing fails).  A query that is not blank expands every
    collapsible section; a blank one leaves the sections alone.  The empty
    query displays every item again. *)
Theorem filter_visibility (q : jsstring) (s : State) :
  let s' := filterOptions toLowerCase q s in
  let hit it :=
    substring (toLowerCase q) (toLowerCase (primaryText it))
    \/ substring (toLowerCase q) (toLowerCase (secondaryText it)) in
  optionItems s' =
    map (fun it => setDisplayed (matchesQuery toLowerCase (toLowerCase q) it)
                     it) (optionItems s)
  /\ length (optionItems s') = length (optionItems s)
  /\ (forall i it, nth_error (optionItems s) i = Some it ->
        exists it', nth_error (optionItems s') i = Some it'
          /\ primaryText it' = primaryText it
          /\ secondaryText it' = secondaryText it
          /\ dataValue it' = dataValue it
          /\ focused it' = focused it
          /\ (displayed it' = true <-> hit it))
  /\ ((forall it, In it (optionItems s) -> ~ hit it) ->
        forall it', In it' (optionItems s') -> displayed it' = false)
  /\ (trim q <> [] ->
        length (sections s') = length (sections s)
        /\ forall b, In b (sections s') -> b = true)
  /\ (trim q = [] -> sections s' = sections s)
  /\ (toLowerCase [] = [] -> q = [] ->
        forall it', In it' (optionItems s') -> displayed it' = true).
Proof.
  intros s' hit.
  assert (optionItems s' =
          map (fun it => setDisplayed
                           (matchesQuery toLowerCase (toLowerCase q) it) it)
              (optionItems s)) as E by reflexivity.
  split; [exact E|].
  split; [rewrite E; apply length_map|].
  split.
  { intros i it H. rewrite E.
    exists (setDisplayed (matchesQuery toLowerCase (toLowerCase q) it) it).
    split; [rewrite nth_error_map, H; reflexivity|].
    repeat (split; [reflexivity|]). simpl.
    apply matchesQuery_true_iff. }
  split.
  { intros Hno it'. rewrite E, in_map_iff. intros [it [<- Hin]]. simpl.
    destruct (matchesQuery toLowerCase (toLowerCase q) it) eqn:M;
      [|reflexivity].
    apply matchesQuery_true_iff in M. exfalso. exact (Hno it Hin M). }
  split.
  { intros Hq.
    assert (sections s' = map (fun _ => true) (sections s)) as Es.
    { unfold s', filterOptions. simpl.
      destruct (trim q); [contradiction Hq; reflexivity | reflexivity]. }
    rewrite Es. split; [apply length_map|].
    intros b. rewrite in_map_iff. intros [x [<- _]]. reflexivity. }
  split.
  { intros Hq. unfold s', filterOptions. simpl. rewrite Hq. reflexivity. }
  intros Hlow -> it'. rewrite E, in_map_iff. intros [it [<- _]]. simpl.
  unfold matchesQuery. rewrite Hlow, includes_empty. reflexivity.
Qed.

End FilterFacts.

Lemma filter_visibility_witness :
  (trim (lit "zzz") <> []
   /\ (forall it', In it' (optionItems
                            (filterOptions asciiLower (lit "zzz") sampleState))
                   -> displayed it' = false)
   /\ sections (filterOptions asciiLower (lit "zzz") sampleState) = [true])
  /\ map displayed
       (optionItems (filterOptions asciiLower (lit "SALES") sampleState))
     = [true; true; false]
  /\ (asciiLower [] = []
      /\ forall it',
           In it' (optionItems (filterOptions asciiLower [] sampleState)) ->
           displayed it' = true).
Proof.
  destruct (filter_visibility asciiLower (lit "zzz") sampleState)
    as [_ [_ [_ [Hnone _]]]].
  split.
  { split; [discriminate|]. split; [|reflexivity].
    apply Hnone. intros it Hin [H | H];
      apply includes_true_iff in H;
      destruct Hin as [<- | [<- | [<- | []]]]; discriminate H. }
  split; [reflexivity|].
  split; [reflexivity|].
  exact (proj2 (proj2 (proj2 (proj2 (proj2 (proj2
           (filter_visibility asciiLower [] sampleState))))))
           eq_refl eq_refl).
Defined.

(* ================================================================== *)
(** * Keyboard navigation *)
(* ================================================================== *)

Lemma positionsFrom_bounds (k : nat) (f : OptionItem -> bool)
  (l : list OptionItem) (x : nat) :
  In x (positionsFrom k f l) -> k <= x < k + length l.
Proof.
  revert k. induction l as [|a l IH]; simpl; intros k H; [contradiction|].
  destruct (f a).
  - destruct H as [<- | H]; [lia|]. apply IH in H. lia.
  - apply IH in H. lia.
Qed.

Lemma positionsFrom_NoDup (k : nat) (f : OptionItem -> bool)
  (l : list OptionItem) : NoDup (positionsFrom k f l).
Proof.
  revert k. induction l as [|a l IH]; simpl; intros k; [constructor|].
  destruct (f a); [|apply IH].
  constructor; [|apply IH].
  intros H. apply positionsFrom_bounds in H. lia.
Qed.

Lemma positionsFrom_clear_focused (k : nat) (l : list OptionItem) :
  positionsFrom k focused (clearFocus l) = [].
Proof.
  revert k. induction l as [|a l IH]; simpl; intros k; [reflexivity|].
  apply IH.
Qed.

Lemma positionsFrom_clear_displayed (k : nat) (l : list OptionItem) :
  positionsFrom k displayed (clearFocus l) = positionsFrom k displayed l.
Proof.
  revert k. induction l as [|a l IH]; simpl; intros k; [reflexivity|].
  rewrite IH. reflexivity.
Qed.

Lemma positionsFrom_focusNth_displayed (k i : nat) (l : list OptionItem) :
  positionsFrom k displayed (focusNth i l) = positionsFrom k displayed l.
Proof.
  revert k i. induction l as [|a l IH]; intros k [|j]; simpl;
    try reflexivity.
  rewrite IH. reflexivity.
Qed.

Lemma positionsFrom_focusNth_focused (k i : nat) (l : list OptionItem) :
  i < length l ->
  positionsFrom k focused (focusNth i (clearFocus l)) = [k + i].
Proof.
  revert k i. induction l as [|a l IH]; intros k [|j]; simpl; intros H;
    try lia.
  - rewrite positionsFrom_clear_focused. f_equal. lia.
  - rewrite IH by lia. f_equal. lia.
Qed.

Lemma indexIn_range (x : nat) (l : list nat) :
  (-1 <= indexIn x l < Z.of_nat (length l))%Z.
Proof.
  induction l as [|y l IH]; simpl length; simpl indexIn; [lia|].
  destruct (x =? y); [lia|].
  destruct (indexIn x l <? 0)%Z eqn:E; [lia|].
  apply Z.ltb_ge in E. lia.
Qed.

Lemma indexIn_nth (l : list nat) (j d : nat) :
  NoDup l -> j < length l -> indexIn (nth j l d) l = Z.of_nat j.
Proof.
  revert j. induction l as [|y l IH]; intros j Hnd Hj; simpl in Hj; [lia|].
  inversion Hnd as [|? ? Hnotin Hnd']; subst.
  destruct j as [|j]; simpl.
  - rewrite Nat.eqb_refl. reflexivity.
  - assert (In (nth j l d) l) as Hin by (apply nth_In; lia).
    destruct (Nat.eqb_spec (nth j l d) y) as [E | _];
      [rewrite E in Hin; contradiction|].
    rewrite IH by (auto; lia).
    destruct (Z.of_nat j <? 0)%Z eqn:E; [apply Z.ltb_lt in E; lia|].
    lia.
Qed.

Lemma currentIndexOf_range (s : State) :
  (-1 <= currentIndexOf s < Z.of_nat (length (visibleOptions s)))%Z
  \/ currentIndexOf s = (-1)%Z.
Proof.
  unfold currentIndexOf. destruct (focusedOptions s) as [|f fs].
  - right. reflexivity.
  - left. apply indexIn_range.
Qed.

Lemma nextIndex_range (key : Key) (cur len : Z) :
  isArrow key -> (0 < len)%Z -> (-1 <= cur < len)%Z ->
  (0 <= nextIndex key cur len < len)%Z.
Proof.
  intros [-> | ->] Hlen Hcur; unfold nextIndex.
  - apply Z.rem_bound_pos; lia.
  - destruct (cur <=? 0)%Z eqn:E; [lia|]. apply Z.leb_gt in E. lia.
Qed.

Lemma arrow_effect (key : Key) (s : State) :
  isArrow key -> isOpen s = true -> visibleOptions s <> [] ->
  Z.to_nat (nextIndex key (currentIndexOf s)
              (Z.of_nat (length (visibleOptions s))))
    < length (visibleOptions s)
  /\ keydownNav key s =
     mkKeyEffect
       (set_options (focusNth (arrowTarget key s) (clearFocus (optionItems s)))
          (sections s) s)
       true [] (Some (arrowTarget key s)).
Proof.
  intros Hkey Hopen Hvis.
  assert (0 < Z.of_nat (length (visibleOptions s)))%Z as Hlen
    by (destruct (visibleOptions s); [contradiction | simpl; lia]).
  assert (-1 <= currentIndexOf s < Z.of_nat (length (visibleOptions s)))%Z
    as Hcur by (destruct (currentIndexOf_range s) as [H | H]; lia).
  pose proof (nextIndex_range key _ _ Hkey Hlen Hcur) as Hn.
  assert (Z.to_nat (nextIndex key (currentIndexOf s)
                      (Z.of_nat (length (visibleOptions s))))
          < length (visibleOptions s)) as Hidx by lia.
  split; [exact Hidx|].
  unfold keydownNav. rewrite Hopen. simpl negb. cbv iota.
  unfold arrowTarget. fold (currentIndexOf s).
  destruct (visibleOptions s) as [|v vs] eqn:Ev; [contradiction|].
  assert (forall k,
    k < length (v :: vs) ->
    nth_error (v :: vs) k = Some (nth k (v :: vs) 0)) as Hnth
    by (intros k Hk; apply nth_error_nth'; exact Hk).
  unfold currentIndexOf in *. rewrite Ev in *.
  destruct Hkey as [-> | ->]; rewrite (Hnth _ Hidx); reflexivity.
Qed.

(** After an arrow key exactly the target is focused; what is visible, and
    that the widget is open, does not change. *)
Lemma arrow_result (key : Key) (s : State) :
  isArrow key -> isOpen s = true -> visibleOptions s <> [] ->
  let s' := after (keydownNav key s) in
  focusedOptions s' = [arrowTarget key s]
  /\ In (arrowTarget key s) (visibleOptions s)
  /\ visibleOptions s' = visibleOptions s
  /\ isOpen s' = true
  /\ defaultPrevented (keydownNav key s) = true
  /\ clicked (keydownNav key s) = [].
Proof.
  intros Hkey Hopen Hvis s'.
  destruct (arrow_effect key s Hkey Hopen Hvis) as [Hidx E].
  assert (In (arrowTarget key s) (visibleOptions s)) as Hin
    by (apply nth_In; exact Hidx).
  unfold s'. rewrite E. simpl.
  split; [|split; [exact Hin|split; [|split; [exact Hopen|split]]]];
    try reflexivity.
  - unfold focusedOptions. simpl.
    rewrite positionsFrom_focusNth_focused; [reflexivity|].
    unfold visibleOptions in Hin.
    destruct (widgetHidden s); [contradiction|].
    apply positionsFrom_bounds in Hin. lia.
  - unfold visibleOptions. simpl. destruct (widgetHidden s); [reflexivity|].
    rewrite positionsFrom_focusNth_displayed, positionsFrom_clear_displayed.
    reflexivity.
Qed.

Lemma visibleOptions_NoDup (s : State) : NoDup (visibleOptions s).
Proof.
  unfold visibleOptions. destruct (widgetHidden s);
    [constructor | apply positionsFrom_NoDup].
Qed.

Lemma currentIndexOf_none (s : State) :
  focusedOptions s = [] -> currentIndexOf s = (-1)%Z.
Proof. unfold currentIndexOf. intros ->. reflexivity. Qed.

Lemma currentIndexOf_single (s : State) (j : nat) :
  j < length (visibleOptions s) ->
  focusedOptions s = [nth j (visibleOptions s) 0] ->
  currentIndexOf s = Z.of_nat j.
Proof.
  unfold currentIndexOf. intros Hj ->.
  apply indexIn_nth; [apply visibleOptions_NoDup | exact Hj].
Qed.

Lemma arrowTarget_down_none (s : State) :
  visibleOptions s <> [] -> focusedOptions s = [] ->
  arrowTarget ArrowDown s = nth 0 (visibleOptions s) 0.
Proof.
  intros Hvis Hf. unfold arrowTarget. rewrite (currentIndexOf_none s Hf).
  destruct (visibleOptions s); [contradiction | reflexivity].
Qed.

Lemma arrowTarget_up_none (s : State) :
  focusedOptions s = [] ->
  arrowTarget ArrowUp s
  = nth (length (visibleOptions s) - 1) (visibleOptions s) 0.
Proof.
  intros Hf. unfold arrowTarget. rewrite (currentIndexOf_none s Hf).
  simpl. f_equal. lia.
Qed.

Lemma arrowTarget_down_single (s : State) (j : nat) :
  j < length (visibleOptions s) ->
  focusedOptions s = [nth j (visibleOptions s) 0] ->
  arrowTarget ArrowDown s
  = nth (S j mod length (visibleOptions s)) (visibleOptions s) 0.
Proof.
  intros Hj Hf. unfold arrowTarget.
  rewrite (currentIndexOf_single s j Hj Hf). simpl. f_equal.
  rewrite Z.rem_mod_nonneg by lia.
  replace (Z.of_nat j + 1)%Z with (Z.of_nat (S j)) by lia.
  rewrite <- Nat2Z.inj_mod. apply Nat2Z.id.
Qed.

Lemma arrowTarget_up_single (s : State) (j : nat) :
  j < length (visibleOptions s) ->
  focusedOptions s = [nth j (visibleOptions s) 0] ->
  arrowTarget ArrowUp s
  = nth (if j =? 0 then length (visibleOptions s) - 1 else j - 1)
        (visibleOptions s) 0.
Proof.
  intros Hj Hf. unfold arrowTarget.
  rewrite (currentIndexOf_single s j Hj Hf). simpl. f_equal.
  destruct (Nat.eqb_spec j 0) as [-> | Hne]; simpl.
  - lia.
  - destruct (Z.of_nat j <=? 0)%Z eqn:E; [apply Z.leb_le in E; lia|]. lia.
Qed.

Lemma pressDown_cycle (s : State) (k : nat) :
  isOpen s = true -> visibleOptions s <> [] -> focusedOptions s = [] ->
  focusedOptions (pressDown (S k) s)
  = [nth (k mod length (visibleOptions s)) (visibleOptions s) 0]
  /\ visibleOptions (pressDown (S k) s) = visibleOptions s
  /\ isOpen (pressDown (S k) s) = true.
Proof.
  intros Hopen Hvis Hf.
  assert (length (visibleOptions s) <> 0) as HN
    by (destruct (visibleOptions s); [contradiction | discriminate]).
  induction k as [|k [IHf [IHv IHo]]].
  - destruct (arrow_result ArrowDown s (or_introl eq_refl) Hopen Hvis)
      as [F [_ [V [O _]]]].
    unfold pressDown. simpl Nat.iter. rewrite F, V, O.
    rewrite (arrowTarget_down_none s Hvis Hf), Nat.Div0.mod_0_l. auto.
  - set (sk := pressDown (S k) s) in *.
    assert (visibleOptions sk <> []) as Hvis' by (rewrite IHv; exact Hvis).
    destruct (arrow_result ArrowDown sk (or_introl eq_refl) IHo Hvis')
      as [F [_ [V [O _]]]].
    change (pressDown (S (S k)) s) with (after (keydownNav ArrowDown sk)).
    rewrite F, V, O, IHv. split; [|auto].
    rewrite <- IHv in IHf.
    assert (k mod length (visibleOptions sk) < length (visibleOptions sk))
      as Hj by (rewrite IHv; apply Nat.mod_upper_bound; exact HN).
    rewrite (arrowTarget_down_single sk _ Hj IHf), IHv.
    f_equal. f_equal.
    replace (S (k mod length (visibleOptions s)))
      with (k mod length (visibleOptions s) + 1) by lia.
    replace (S k) with (k + 1) by lia.
    apply Nat.Div0.add_mod_idemp_l.
Qed.

(** C7. With the widget open and N >= 1 visible option items, numbered in
    document order, the arrow keys move one focus marker circularly: Down
    from no focus focuses item 1; Down from item N wraps to item 1; from no
    focus the k-th press of Down focuses item ((k-1) mod N) + 1, so item 1 is
    focused at exactly one press in every N; Up from item 1, or from no
    focus, focuses item N; and after any arrow key exactly one item is
    focused, a visible one. *)
Theorem arrow_navigation_wraps (s : State) :
  isOpen s = true -> visibleOptions s <> [] ->
  let vis := visibleOptions s in
  let N := length vis in
  let item j := nth j vis 0 in
  let down := after (keydownNav ArrowDown s) in
  let up := after (keydownNav ArrowUp s) in
  (focusedOptions s = [] -> focusedOptions down = [item 0])
  /\ (focusedOptions s = [item (N - 1)] -> focusedOptions down = [item 0])
  /\ (focusedOptions s = [] ->
      forall k,
        focusedOptions (pressDown (S k) s) = [item (k mod N)]
        /\ (focusedOptions (pressDown (S k) s) = [item 0] <-> k mod N = 0))
  /\ (focusedOptions s = [item 0] \/ focusedOptions s = [] ->
      focusedOptions up = [item (N - 1)])
  /\ (forall j, j < N -> focusedOptions s = [item j] ->
        focusedOptions down = [item (S j mod N)]
        /\ focusedOptions up = [item (if j =? 0 then N - 1 else j - 1)])
  /\ (forall key, isArrow key ->
        exists i, In i vis
          /\ focusedOptions (after (keydownNav key s)) = [i]
          /\ visibleOptions (after (keydownNav key s)) = vis
          /\ defaultPrevented (keydownNav key s) = true).
Proof.
  intros Hopen Hvis vis N item down up.
  assert (N <> 0) as HN
    by (unfold N, vis; destruct (visibleOptions s);
        [contradiction | discriminate]).
  destruct (arrow_result ArrowDown s (or_introl eq_refl) Hopen Hvis)
    as [Fd _].
  destruct (arrow_result ArrowUp s (or_intror eq_refl) Hopen Hvis)
    as [Fu _].
  fold down in Fd. fold up in Fu.
  assert (forall j, j < N -> focusedOptions s = [item j] ->
            focusedOptions down = [item (S j mod N)]
            /\ focusedOptions up = [item (if j =? 0 then N - 1 else j - 1)])
    as Hsingle.
  { intros j Hj Hf. rewrite Fd, Fu.
    rewrite (arrowTarget_down_single s j Hj Hf).
    rewrite (arrowTarget_up_single s j Hj Hf). auto. }
  split; [intros Hf; rewrite Fd, (arrowTarget_down_none s Hvis Hf);
          reflexivity|].
  split.
  { intros Hf. destruct (Hsingle (N - 1) ltac:(lia) Hf) as [E _].
    rewrite E. replace (S (N - 1)) with N by lia.
    rewrite Nat.Div0.mod_same. reflexivity. }
  split.
  { intros Hf k.
    destruct (pressDown_cycle s k Hopen Hvis Hf) as [E _].
    fold vis N (item (k mod N)) in E.
    split; [exact E|]. rewrite E. split.
    - intros H. injection H as H.
      assert (NoDup vis) as Hnd by apply visibleOptions_NoDup.
      apply (proj1 (NoDup_nth vis 0) Hnd); [|lia|exact H].
      apply Nat.mod_upper_bound; exact HN.
    - intros ->. reflexivity. }
  split.
  { intros [Hf | Hf].
    - destruct (Hsingle 0 ltac:(lia) Hf) as [_ E]. exact E.
    - rewrite Fu, (arrowTarget_up_none s Hf). reflexivity. }
  split; [exact Hsingle|].
  intros key Hkey.
  destruct (arrow_result key s Hkey Hopen Hvis) as [F [I [V [_ [D _]]]]].
  exists (arrowTarget key s). auto.
Qed.

(** The sample panel with its two displayed items, nothing focused. *)
Lemma arrow_navigation_wraps_witness :
  (isOpen sampleState = true /\ visibleOptions sampleState = [0; 1])
  /\ focusedOptions (after (keydownNav ArrowDown sampleState)) = [0]
  /\ focusedOptions (after (keydownNav ArrowUp sampleState)) = [1]
  /\ focusedOptions (pressDown 2 sampleState) = [1]
  /\ focusedOptions (pressDown 3 sampleState) = [0].
Proof.
  split; [split; reflexivity|].
  assert (visibleOptions sampleState <> []) as Hvis by discriminate.
  destruct (arrow_navigation_wraps sampleState eq_refl Hvis)
    as [D [_ [C [U _]]]].
  split; [exact (D eq_refl)|].
  split; [exact (U (or_intror eq_refl))|].
  split; [exact (proj1 (C eq_refl 1)) | exact (proj1 (C eq_refl 2))].
Defined.

(** C10. While the widget is closed, or no option item is visible, the
    document-level key handler does nothing for any key: the state -- and
    with it the focus marker -- is unchanged, no item is clicked, nothing is
    scrolled and [preventDefault] is not called. *)
Theorem keydown_ignored (key : Key) (s : State) :
  isOpen s = false \/ visibleOptions s = [] ->
  keydownNav key s = noEffect s
  /\ after (keydownNav key s) = s
  /\ focusedOptions (after (keydownNav key s)) = focusedOptions s
  /\ clicked (keydownNav key s) = []
  /\ scrolledIntoView (keydownNav key s) = None
  /\ defaultPrevented (keydownNav key s) = false.
Proof.
  intros H.
  assert (keydownNav key s = noEffect s) as E.
  { unfold keydownNav. destruct H as [-> | H]; [reflexivity|].
    rewrite H. destruct (negb (isOpen s)); reflexivity. }
  rewrite E. repeat split.
Qed.

Lemma keydown_ignored_witness :
  isOpen closedState = false
  /\ after (keydownNav Enter closedState) = closedState
  /\ clicked (keydownNav Enter closedState) = []
  /\ defaultPrevented (keydownNav ArrowDown closedState) = false.
Proof.
  split; [reflexivity|].
  destruct (keydown_ignored Enter closedState (or_introl eq_refl))
    as [_ [A [_ [C _]]]].
  split; [exact A|]. split; [exact C|].
  exact (proj2 (proj2 (proj2 (proj2 (proj2
           (keydown_ignored ArrowDown closedState (or_introl eq_refl))))))).
Defined.

(* ================================================================== *)
(** * Further properties: trimming and submission *)
(* ================================================================== *)

Lemma trimStart_split (s : jsstring) :
  exists a, blank a /\ s = a ++ trimStart s
    /\ (trimStart s = []
        \/ exists c t, trimStart s = c :: t /\ isWhiteSpace c = false).
Proof.
  induction s as [|c t [a [Ha [E H]]]].
  - exists []. split; [constructor|]. split; [reflexivity | left; reflexivity].
  - simpl. destruct (isWhiteSpace c) eqn:W.
    + exists (c :: a). split; [constructor; assumption|].
      split; [simpl; congruence | exact H].
    + exists []. split; [constructor|]. split; [reflexivity|].
      right. exists c, t. auto.
Qed.

Lemma trimStart_blank (s : jsstring) : blank s -> trimStart s = [].
Proof.
  induction 1 as [|c t W _ IH]; simpl; [reflexivity|]. rewrite W. exact IH.
Qed.

Lemma trimStart_app_blank (a b : jsstring) :
  blank a -> trimStart (a ++ b) = trimStart b.
Proof.
  induction 1 as [|c t W _ IH]; simpl; [reflexivity|]. rewrite W. exact IH.
Qed.

Lemma trimStart_head (c : char16) (t : jsstring) :
  isWhiteSpace c = false -> trimStart (c :: t) = c :: t.
Proof. intros W. simpl. rewrite W. reflexivity. Qed.

Lemma blank_rev (s : jsstring) : blank s -> blank (rev s).
Proof. apply Forall_rev. Qed.

Lemma blank_head_false (c : char16) (t : jsstring) :
  isWhiteSpace c = false -> ~ blank (c :: t).
Proof. intros W H. inversion H; congruence. Qed.

Lemma trim_tight (s : jsstring) : tight s -> trim s = s.
Proof.
  intros [[c [t [E W]]] [d [u [Er Wr]]]]. unfold trim, trimEnd.
  rewrite E, (trimStart_head c t W), <- E, Er, (trimStart_head d u Wr), <- Er.
  apply rev_involutive.
Qed.

(** [trim] cuts a blank prefix and a blank suffix off, and what it leaves is
    empty or starts and ends with something other than white space. *)
Lemma trim_split (s : jsstring) :
  exists a b, blank a /\ blank b /\ s = a ++ trim s ++ b
    /\ (trim s = [] \/ tight (trim s)).
Proof.
  destruct (trimStart_split s) as [a [Ha [E Hw]]].
  destruct (trimStart_split (rev (trimStart s))) as [b' [Hb [Er Hu]]].
  assert (trimStart s = trim s ++ rev b') as Ew.
  { unfold trim, trimEnd. rewrite <- rev_app_distr, <- Er.
    symmetry. apply rev_involutive. }
  exists a, (rev b'). split; [exact Ha|]. split; [apply blank_rev; exact Hb|].
  split; [rewrite <- Ew; exact E|].
  destruct (trim s) as [|x xs] eqn:T; [left; reflexivity|]. right. split.
  - destruct Hw as [Hw | [c [t [Hw W]]]].
    + rewrite Hw in Ew. discriminate Ew.
    + rewrite Hw in Ew. simpl in Ew. inversion Ew; subst.
      exists x, xs. auto.
  - unfold trim, trimEnd in T.
    destruct Hu as [Hu | [d [u [Hu W]]]].
    + rewrite Hu in T. discriminate T.
    + exists d, u. split; [|exact W].
      rewrite <- T, rev_involutive. exact Hu.
Qed.

Lemma trim_blank (s : jsstring) : blank s -> trim s = [].
Proof.
  intros H. unfold trim, trimEnd. rewrite (trimStart_blank s H). reflexivity.
Qed.

Lemma trim_sandwich (a m b : jsstring) :
  blank a -> blank b -> tight m -> trim (a ++ m ++ b) = m.
Proof.
  intros Ha Hb Hm. pose proof Hm as [[c [t [E W]]] [d [u [Er Wr]]]].
  unfold trim, trimEnd.
  rewrite (trimStart_app_blank a (m ++ b) Ha).
  assert (trimStart (m ++ b) = m ++ b) as H1
    by (rewrite E; simpl; rewrite W; reflexivity).
  assert (trimStart (rev m) = rev m) as H2
    by (rewrite Er; apply trimStart_head; exact Wr).
  rewrite H1, rev_app_distr.
  rewrite (trimStart_app_blank (rev b) (rev m) (blank_rev b Hb)), H2.
  apply rev_involutive.
Qed.

Lemma trim_nil_blank (s : jsstring) : trim s = [] -> blank s.
Proof.
  intros T. destruct (trim_split s) as [a [b [Ha [Hb [E _]]]]].
  rewrite T in E. simpl in E. rewrite E. apply Forall_app. auto.
Qed.

(** X1. A text made of white space only is never submitted: the widget is
    left exactly as it was.  Conversely a submission that is ignored while
    the widget is idle had a blank text. *)
Theorem blank_input_never_sent (s : State) :
  (blank (inputValue s) -> handleUserInput s = s)
  /\ (isTyping s = false -> calls (handleUserInput s) = calls s ->
      blank (inputValue s)).
Proof.
  split.
  - intros H. apply handleUserInput_ignored. right. apply trim_blank. exact H.
  - intros Hty Hc. apply trim_nil_blank.
    destruct (trim (inputValue s)) as [|c t] eqn:T; [reflexivity|].
    rewrite handleUserInput_accepted in Hc by (rewrite ?T; auto).
    simpl in Hc. exfalso.
    assert (length (calls s ++ [mkCall processMessage (trim (inputValue s))])
            = length (calls s)) as L by (rewrite Hc; reflexivity).
    rewrite length_app in L. simpl in L. lia.
Qed.

Lemma blank_input_never_sent_witness :
  blank (inputValue (set_inputValue ([9%N; 160%N] ++ lit "  ") initialState))
  /\ handleUserInput (set_inputValue ([9%N; 160%N] ++ lit "  ") initialState)
     = set_inputValue ([9%N; 160%N] ++ lit "  ") initialState.
Proof.
  assert (blank (inputValue
                   (set_inputValue ([9%N; 160%N] ++ lit "  ") initialState)))
    as H by (repeat constructor).
  split; [exact H|].
  exact (proj1 (blank_input_never_sent _) H).
Defined.

(** X2. An idle widget sends a text that is not blank with the white space
    around it cut off and everything between kept: if the field holds
    [a ++ m ++ b] with [a], [b] blank and [m] starting and ending with
    something else, the one call issued carries [m], the user's bubble shows
    [m] escaped, the field is emptied and both controls are disabled. *)
Theorem submission_strips_surrounding_space (s : State) (a m b : jsstring) :
  isTyping s = false -> inputValue s = a ++ m ++ b ->
  blank a -> blank b -> tight m ->
  let s' := handleUserInput s in
  calls s' = calls s ++ [mkCall processMessage m]
  /\ messages s'
     = messages s ++ [mkMessage (lit "user") (isRoleSelection m)
                        (isHTMLResponse m) true (paragraph m)]
  /\ inputValue s' = []
  /\ inputDisabled s' = true /\ sendDisabled s' = true
  /\ isTyping s' = true /\ typingShown s' = true.
Proof.
  intros Hty Hin Ha Hb Hm s'.
  assert (trim (inputValue s) = m) as T
    by (rewrite Hin; apply trim_sandwich; assumption).
  assert (truthy (trim (inputValue s)) = true) as Tr.
  { rewrite T. destruct Hm as [[c [t [-> _]]] _]. reflexivity. }
  unfold s'. rewrite (handleUserInput_accepted s Hty Tr), T. simpl.
  repeat split.
  unfold renderMessage, messageContent. rewrite renderKind_user. reflexivity.
Qed.

Lemma submission_strips_surrounding_space_witness :
  calls (handleUserInput
           (set_inputValue (lit "  show  my orders " ++ nl) initialState))
  = [mkCall processMessage (lit "show  my orders")].
Proof.
  refine (proj1 (submission_strips_surrounding_space
            (set_inputValue (lit "  show  my orders " ++ nl) initialState)
            (lit "  ") (lit "show  my orders") (lit " " ++ nl)
            eq_refl eq_refl _ _ _)).
  - repeat constructor.
  - repeat constructor.
  - split; [exists 115%N, (lit "how  my orders") |
            exists 115%N, (rev (lit "show  my order"))]; split; reflexivity.
Defined.

(* ================================================================== *)
(** * Further properties: what every reachable state satisfies *)
(* ================================================================== *)

Lemma chrome_selectRole (n : jsstring) (s : State) :
  chrome (selectRole n s) = chrome s.
Proof.
  unfold selectRole.
  destruct (negb (truthy (trim (inputValue s)))); [reflexivity|].
  destruct (includes (trim (inputValue s)) (lit ",")
            || allDigits (trim (inputValue s))); reflexivity.
Qed.

Lemma chrome_selectOption (v : jsstring) (s : State) :
  chrome (selectOption v s) = chrome s.
Proof. reflexivity. Qed.

Lemma chrome_fold_clicks (its : list OptionItem) (l : list nat) (s : State) :
  chrome
    (fold_left
       (fun st i =>
          match nth_error its i with
          | Some it => clickOptionItem it st
          | None => st
          end) l s)
  = chrome s.
Proof.
  revert s. induction l as [|i l IH]; intros s; simpl; [reflexivity|].
  rewrite IH. destruct (nth_error its i); reflexivity.
Qed.

Lemma chrome_keydownNav (k : Key) (s : State) :
  chrome (after (keydownNav k s)) = chrome s.
Proof.
  unfold keydownNav.
  destruct (negb (isOpen s)); [reflexivity|].
  destruct (visibleOptions s) as [|v vs]; [reflexivity|].
  destruct k; simpl; try reflexivity.
  - destruct (nth_error (v :: vs) _); reflexivity.
  - destruct (nth_error (v :: vs) _); reflexivity.
  - apply chrome_fold_clicks.
Qed.

(** The five ways in which an event can act on the state. *)
Lemma step_shape (toLowerCase : jsstring -> jsstring) (e : Event)
  (s : State) :
  chrome (step toLowerCase e s) = chrome s
  \/ step toLowerCase e s = toggleWidget s
  \/ (exists s0, chrome s0 = chrome s
        /\ step toLowerCase e s = handleUserInput s0)
  \/ (exists r, step toLowerCase e s = deliver r s)
  \/ (exists m, step toLowerCase e s = addMessage m (lit "bot") false s).
Proof.
  destruct e; simpl.
  - destruct (nth_error welcomeMessages i) as [m|].
    + right. right. right. right. exists m. reflexivity.
    + left. reflexivity.
  - right. left. reflexivity.
  - left. destruct (inputDisabled s); reflexivity.
  - right. right. left. exists s. auto.
  - left. unfold clickRoleButton. rewrite !chrome_selectRole. reflexivity.
  - left. apply chrome_selectRole.
  - right. right. left. exists (set_inputValue (lit "all roles") s). auto.
  - left. destruct (nth_error (optionItems s) i); reflexivity.
  - unfold autoSubmit. destruct (autoSubmitTimers s) as [|n].
    + left. reflexivity.
    + right. right. left. exists (set_timers n s). auto.
  - left. reflexivity.
  - left. reflexivity.
  - left. apply chrome_keydownNav.
  - left. reflexivity.
  - right. right. right. left. exists r. reflexivity.
Qed.

Lemma handleUserInput_shape (s : State) :
  handleUserInput s = s
  \/ (isTyping s = false /\ tight (trim (inputValue s))
      /\ handleUserInput s =
         sendToBackend (trim (inputValue s))
           (showTyping (set_disabled true (set_inputValue []
              (addMessage (trim (inputValue s)) (lit "user") true s))))).
Proof.
  destruct (isTyping s) eqn:Hty.
  - left. apply handleUserInput_ignored. left. exact Hty.
  - destruct (trim_split (inputValue s)) as [a [b [_ [_ [_ [T | T]]]]]].
    + left. apply handleUserInput_ignored. right. exact T.
    + right. split; [reflexivity|]. split; [exact T|].
      apply handleUserInput_accepted; [exact Hty|].
      destruct T as [[c [t [-> _]]] _]. reflexivity.
Qed.

Lemma consistent_chrome (s s' : State) :
  chrome s' = chrome s -> consistent s -> consistent s'.
Proof.
  unfold chrome, consistent, userBubbles. intros E.
  injection E as E1 E2 E3 E4 E5 E6 E7 E8 E9 E10 E11.
  rewrite ?E1, ?E2, ?E3, ?E4, ?E5, ?E6, ?E7, ?E8, ?E9. tauto.
Qed.

Lemma userBubbles_bot (m : jsstring) (a : bool) (ms : list Message) :
  filter (fun x => strictEq (messageClass x) (lit "user"))
    (ms ++ [renderMessage m (lit "bot") a])
  = filter (fun x => strictEq (messageClass x) (lit "user")) ms.
Proof. rewrite filter_app. simpl. apply app_nil_r. Qed.

Lemma userBubbles_user (m : jsstring) (a : bool) (ms : list Message) :
  map content
    (filter (fun x => strictEq (messageClass x) (lit "user"))
       (ms ++ [renderMessage m (lit "user") a]))
  = map content (filter (fun x => strictEq (messageClass x) (lit "user")) ms)
    ++ [paragraph m].
Proof.
  rewrite filter_app, map_app. simpl. f_equal.
  unfold messageContent. rewrite renderKind_user. reflexivity.
Qed.

Lemma consistent_addMessage_bot (m : jsstring) (a : bool) (s : State) :
  consistent s -> consistent (addMessage m (lit "bot") a s).
Proof.
  unfold consistent, userBubbles. simpl.
  intros [H1 [H2 [H3 [H4 H5]]]].
  rewrite userBubbles_bot.
  repeat (split; [assumption|]).
  split; [destruct (isHTMLResponse m); lia|]. auto.
Qed.

Lemma consistent_toggleWidget (s : State) :
  consistent s -> consistent (toggleWidget s).
Proof.
  unfold consistent, toggleWidget, userBubbles.
  intros [H1 H2]. destruct (isOpen s); simpl; auto.
Qed.

Lemma consistent_handleUserInput (s : State) :
  consistent s -> consistent (handleUserInput s).
Proof.
  intros H. destruct (handleUserInput_shape s) as [-> | [Hty [T ->]]];
    [exact H|].
  destruct H as [H1 [H2 [H3 [H4 H5]]]].
  unfold consistent, userBubbles in *. simpl.
  rewrite userBubbles_user, map_app, H4. simpl.
  split; [exact H1|]. split; [auto|].
  split; [destruct (isHTMLResponse (trim (inputValue s))); lia|].
  split; [reflexivity|].
  apply Forall_app. split; [exact H5|]. constructor; [|constructor]. auto.
Qed.

Lemma consistent_onSettled (o : Settled) (s : State) :
  widgetHidden s = negb (isOpen s) -> navListeners s <= 1 ->
  userBubbles s = map (fun c => paragraph (argMessage c)) (calls s) ->
  Forall (fun c => method c = processMessage /\ tight (argMessage c))
    (calls s) ->
  consistent (onSettled o s).
Proof.
  intros H1 H3 H4 H5. unfold consistent, userBubbles in *.
  destruct o as [[[[|c t]|]]|e]; simpl; rewrite userBubbles_bot;
    (split; [exact H1|]); (split; [auto|]);
    (split; [|split; [exact H4 | exact H5]]);
    try exact H3.
  destruct (isHTMLResponse (c :: t)); lia.
Qed.

Lemma consistent_deliver (r : Reply) (s : State) :
  consistent s -> consistent (deliver r s).
Proof.
  intros H. unfold deliver. destruct (inFlight s) as [|n]; [exact H|].
  destruct H as [H1 [_ [H3 [H4 H5]]]].
  apply consistent_onSettled; assumption.
Qed.

Lemma consistent_step (toLowerCase : jsstring -> jsstring) (e : Event)
  (s : State) :
  consistent s -> consistent (step toLowerCase e s).
Proof.
  intros H.
  destruct (step_shape toLowerCase e s)
    as [E | [-> | [[s0 [E ->]] | [[r ->] | [m ->]]]]].
  - exact (consistent_chrome s _ E H).
  - apply consistent_toggleWidget; exact H.
  - apply consistent_handleUserInput. exact (consistent_chrome s _ E H).
  - apply consistent_deliver; exact H.
  - apply consistent_addMessage_bot; exact H.
Qed.

Lemma consistent_run (toLowerCase : jsstring -> jsstring) (es : list Event)
  (s : State) :
  consistent s -> consistent (run toLowerCase es s).
Proof.
  revert s. induction es as [|e es IH]; intros s H; simpl; [exact H|].
  apply IH. apply consistent_step. exact H.
Qed.

Lemma consistent_initial : consistent initialState.
Proof.
  unfold consistent, userBubbles. simpl. repeat split; auto.
Qed.

(** X3. Whatever events the widget handles, the panel carries the class
    [hidden] exactly when [isOpen] is false: the flag and the document never
    disagree. *)
Theorem panel_hidden_iff_closed (toLowerCase : jsstring -> jsstring)
  (es : list Event) :
  widgetHidden (run toLowerCase es initialState)
  = negb (isOpen (run toLowerCase es initialState)).
Proof.
  exact (proj1 (consistent_run toLowerCase es initialState consistent_initial)).
Qed.

(** X4. Whatever events the widget handles, the input field and the send
    button are disabled, and the typing indicator is shown, exactly while
    [isTyping] is true, that is, exactly while a request is in flight. *)
Theorem controls_disabled_iff_in_flight (toLowerCase : jsstring -> jsstring)
  (es : list Event) :
  let s := run toLowerCase es initialState in
  inputDisabled s = isTyping s /\ sendDisabled s = isTyping s
  /\ typingShown s = isTyping s
  /\ (isTyping s = true <-> inFlight s = 1)
  /\ (isTyping s = false <-> inFlight s = 0).
Proof.
  intros s.
  destruct (consistent_run toLowerCase es initialState consistent_initial)
    as [_ [[H1 [H2 H3]] _]].
  fold s in H1, H2, H3.
  assert (mutex s) as M by (apply run_mutex; reflexivity).
  unfold mutex in M.
  repeat (split; [assumption|]).
  destruct (isTyping s); rewrite M; split; split;
    intros; (reflexivity || discriminate).
Qed.

(** X5. Whatever events the widget handles, the user's bubbles and the
    remote calls correspond one to one and in order: the k-th bubble is the
    paragraph with the escaped text of the k-th call.  Every call goes to the
    fixed procedure, and its text is not empty and has no white space at
    either end. *)
Theorem user_bubbles_match_calls (toLowerCase : jsstring -> jsstring)
  (es : list Event) :
  let s := run toLowerCase es initialState in
  userBubbles s = map (fun c => paragraph (argMessage c)) (calls s)
  /\ Forall (fun c => method c = processMessage /\ tight (argMessage c)
                      /\ trim (argMessage c) = argMessage c)
       (calls s).
Proof.
  intros s.
  destruct (consistent_run toLowerCase es initialState consistent_initial)
    as [_ [_ [_ [H4 H5]]]].
  fold s in H4, H5. split; [exact H4|].
  apply Forall_impl with (2 := H5). intros c [Hm Ht].
  split; [exact Hm|]. split; [exact Ht | apply trim_tight; exact Ht].
Qed.

(** However often option handlers are bound again, the document carries at
    most one [keydown.nexchat-nav] listener. *)
Lemma at_most_one_key_listener (toLowerCase : jsstring -> jsstring)
  (es : list Event) :
  navListeners (run toLowerCase es initialState) <= 1.
Proof.
  exact (proj1 (proj2 (proj2
           (consistent_run toLowerCase es initialState consistent_initial)))).
Qed.

(* ================================================================== *)
(** * Further properties: exchanges *)
(* ================================================================== *)

Lemma exchange_effect (toLowerCase : jsstring -> jsstring)
  (t : jsstring) (r : Reply) (s : State) :
  idle s ->
  idle (run toLowerCase (exchange (t, r)) s)
  /\ calls (run toLowerCase (exchange (t, r)) s)
     = calls s ++ (if truthy (trim t)
                   then [mkCall processMessage (trim t)] else []).
Proof.
  intros [Hty [Hdis Hfl]]. unfold exchange, run. simpl. rewrite Hdis.
  set (s1 := set_inputValue t s).
  destruct (truthy (trim t)) eqn:T.
  - assert (handleUserInput s1 =
            sendToBackend (trim t)
              (showTyping (set_disabled true (set_inputValue []
                 (addMessage (trim t) (lit "user") true s1))))) as E
      by (apply (handleUserInput_accepted s1); [exact Hty | exact T]).
    rewrite E. unfold deliver. simpl inFlight. cbv iota.
    destruct (onSettled_idle (settle r)
                (set_transport
                   (calls (sendToBackend (trim t)
                      (showTyping (set_disabled true (set_inputValue []
                         (addMessage (trim t) (lit "user") true s1))))))
                   (inFlight s)
                   (sendToBackend (trim t)
                      (showTyping (set_disabled true (set_inputValue []
                         (addMessage (trim t) (lit "user") true s1)))))))
      as [I1 [I2 [I3 [I4 _]]]].
    unfold idle. rewrite I1, I2, I3, I4. simpl. auto.
  - assert (handleUserInput s1 = s1) as E.
    { apply handleUserInput_ignored. right.
      apply truthy_false_iff. exact T. }
    rewrite E. unfold deliver. simpl inFlight. rewrite Hfl.
    unfold idle. simpl. rewrite app_nil_r. auto.
Qed.

Lemma run_app (toLowerCase : jsstring -> jsstring) (a b : list Event)
  (s : State) :
  run toLowerCase (a ++ b) s = run toLowerCase b (run toLowerCase a s).
Proof. unfold run. apply fold_left_app. Qed.

Lemma exchanges_effect (toLowerCase : jsstring -> jsstring)
  (trs : list (jsstring * Reply)) (s : State) :
  idle s ->
  idle (run toLowerCase (flat_map exchange trs) s)
  /\ calls (run toLowerCase (flat_map exchange trs) s)
     = calls s
       ++ map (fun tr => mkCall processMessage (trim (fst tr)))
            (filter (fun tr => truthy (trim (fst tr))) trs).
Proof.
  revert s. induction trs as [|[t r] trs IH]; intros s H.
  - simpl. rewrite app_nil_r. auto.
  - change (flat_map exchange ((t, r) :: trs))
      with (exchange (t, r) ++ flat_map exchange trs).
    rewrite !run_app.
    destruct (exchange_effect toLowerCase t r s H) as [H1 E1].
    destruct (IH _ H1) as [H2 E2].
    split; [exact H2|]. rewrite E2, E1. simpl filter.
    destruct (truthy (trim t)); simpl; rewrite <- app_assoc; reflexivity.
Qed.

(** X6. A conversation in which the user types, sends and waits for the
    answer, again and again, issues exactly one call for every text that is
    not blank, in the order of sending and with the trimmed text, whatever
    the host answers; blank texts issue none; and the widget ends idle. *)
Theorem exchanges_sent_once_in_order (toLowerCase : jsstring -> jsstring)
  (trs : list (jsstring * Reply)) :
  let s := run toLowerCase (flat_map exchange trs) initialState in
  calls s
  = map (fun tr => mkCall processMessage (trim (fst tr)))
      (filter (fun tr => truthy (trim (fst tr))) trs)
  /\ isTyping s = false /\ inputDisabled s = false /\ inFlight s = 0.
Proof.
  assert (idle initialState) as H by (repeat split).
  destruct (exchanges_effect toLowerCase trs initialState H) as [I E].
  split; [exact E | exact I].
Qed.

(* ================================================================== *)
(** * Further properties: the interaction dispatcher *)
(* ================================================================== *)

(** X7. The "assign all" button sends the fixed text ['all roles'] at once
    when the widget is idle, whatever the field held.  While a request is in
    flight it sends nothing: the text is written into the field and stays
    there. *)
Theorem assignAllRoles_effect (s : State) :
  (isTyping s = false ->
     calls (assignAllRoles s)
     = calls s ++ [mkCall processMessage (lit "all roles")]
     /\ messages (assignAllRoles s)
        = messages s ++ [renderMessage (lit "all roles") (lit "user") true]
     /\ inputValue (assignAllRoles s) = []
     /\ isTyping (assignAllRoles s) = true)
  /\ (isTyping s = true ->
     assignAllRoles s = set_inputValue (lit "all roles") s
     /\ calls (assignAllRoles s) = calls s
     /\ inputValue (assignAllRoles s) = lit "all roles").
Proof.
  unfold assignAllRoles. split; intros Hty.
  - rewrite handleUserInput_accepted by (exact Hty || reflexivity).
    repeat split.
  - rewrite handleUserInput_ignored by (left; exact Hty). repeat split.
Qed.

Lemma assignAllRoles_effect_witness :
  isTyping busyState = true
  /\ calls (assignAllRoles busyState) = calls busyState
  /\ inputValue (assignAllRoles busyState) = lit "all roles".
Proof.
  split; [reflexivity|].
  exact (proj2 (proj2 (assignAllRoles_effect busyState) eq_refl)).
Defined.




Lemma tight_digits (n : jsstring) : allDigits n = true -> tight n.
Proof.
  intros H. apply allDigits_true_iff in H. destruct H as [Hne Hd].
  split.
  - destruct n as [|c t]; [contradiction Hne; reflexivity|].
    inversion Hd; subst. exists c, t. split; [reflexivity|].
    apply digit_not_space; assumption.
  - assert (Forall (fun c => isDigit c = true) (rev n)) as Hr
      by (apply Forall_rev; exact Hd).
    destruct (rev n) as [|d u] eqn:E.
    + apply (f_equal (@rev _)) in E. rewrite rev_involutive in E.
      contradiction Hne.
    + inversion Hr; subst. exists d, u. split; [reflexivity|].
      apply digit_not_space; assumption.
Qed.

Lemma tight_app (v w n : jsstring) : tight v -> tight n -> tight (v ++ w ++ n).
Proof.
  intros [[c [t [-> W]]] _] [_ [d [u [E Wd]]]]. split.
  - exists c, (t ++ w ++ n). auto.
  - exists d, (u ++ rev w ++ rev (c :: t)). split; [|exact Wd].
    rewrite !rev_app_distr, E, <- app_assoc. reflexivity.
Qed.

Lemma selectRole_appends (n : jsstring) (s : State) :
  tight (inputValue s) ->
  substring (lit ",") (inputValue s) \/ allDigits (inputValue s) = true ->
  inputValue (selectRole n s) = inputValue s ++ lit "," ++ n.
Proof.
  intros Ht Hc. destruct (selectRole_once n s) as [_ [_ [E _]]].
  rewrite (trim_tight _ Ht) in E. apply E.
  - destruct Ht as [[c [t [-> _]]] _]. discriminate.
  - destruct Hc as [Hc | Hc]; [left; exact Hc|].
    right. apply allDigits_true_iff in Hc. tauto.
Qed.

Lemma selectRole_fold (ns : list jsstring) (s : State) :
  tight (inputValue s) ->
  substring (lit ",") (inputValue s) \/ allDigits (inputValue s) = true ->
  Forall (fun n => allDigits n = true) ns ->
  inputValue (fold_left (fun st n => selectRole n st) ns s)
  = inputValue s ++ flat_map (fun n => lit "," ++ n) ns.
Proof.
  revert s. induction ns as [|n ns IH]; intros s Ht Hc Hd; simpl.
  - symmetry. apply app_nil_r.
  - inversion Hd as [|? ? Hn Hns]; subst.
    pose proof (selectRole_appends n s Ht Hc) as E.
    rewrite IH; [rewrite E, <- !app_assoc; reflexivity | | | exact Hns].
    + rewrite E. apply tight_app; [exact Ht | apply tight_digits; exact Hn].
    + left. rewrite E. exists (inputValue s), n. reflexivity.
Qed.

Lemma joinComma_cons (n : jsstring) (ns : list jsstring) :
  joinComma (n :: ns) = n ++ flat_map (fun m => lit "," ++ m) ns.
Proof.
  revert n. induction ns as [|m ns IH]; intros n.
  - simpl. symmetry. apply app_nil_r.
  - change (joinComma (n :: m :: ns)) with (n ++ lit "," ++ joinComma (m :: ns)).
    rewrite IH. simpl. rewrite <- ?app_assoc. reflexivity.
Qed.

Lemma chrome_selectRole_fold (ns : list jsstring) (s : State) :
  chrome (fold_left (fun st n => selectRole n st) ns s) = chrome s.
Proof.
  revert s. induction ns as [|n ns IH]; intros s; simpl; [reflexivity|].
  rewrite IH. apply chrome_selectRole.
Qed.

(** X9. Successive calls of [selectRole] build a comma-separated list: from
    a blank field, calling it with the numbers n1, ..., nk in turn leaves
    [n1,n2,...,nk] in the field, and nothing is sent, shown or scheduled on
    the way. *)
Theorem selectRole_builds_comma_list (ns : list jsstring) (s : State) :
  blank (inputValue s) -> ns <> [] ->
  Forall (fun n => allDigits n = true) ns ->
  inputValue (fold_left (fun st n => selectRole n st) ns s) = joinComma ns
  /\ chrome (fold_left (fun st n => selectRole n st) ns s) = chrome s
  /\ autoSubmitTimers (fold_left (fun st n => selectRole n st) ns s)
     = autoSubmitTimers s.
Proof.
  intros Hb Hne Hd. destruct ns as [|n ns]; [contradiction Hne; reflexivity|].
  inversion Hd as [|? ? Hn Hns]; subst.
  split; [|split; [apply chrome_selectRole_fold|]].
  - simpl fold_left.
    destruct (selectRole_once n s) as [_ [E _]].
    specialize (E (trim_blank _ Hb)).
    rewrite selectRole_fold; [rewrite E; symmetry; apply joinComma_cons | | |
                              exact Hns].
    + rewrite E. apply tight_digits; exact Hn.
    + right. rewrite E. exact Hn.
  - clear. revert s. induction (n :: ns) as [|m ms IH]; intros s; simpl;
      [reflexivity|].
    rewrite IH. destruct (selectRole_once m s) as [-> _]. reflexivity.
Qed.

Lemma selectRole_builds_comma_list_witness :
  inputValue
    (fold_left (fun st n => selectRole n st)
       [lit "3"; lit "12"; lit "5"] (set_inputValue (lit "  ") initialState))
  = lit "3,12,5".
Proof.
  refine (proj1 (selectRole_builds_comma_list [lit "3"; lit "12"; lit "5"]
            (set_inputValue (lit "  ") initialState) _ _ _)).
  - repeat constructor.
  - discriminate.
  - repeat constructor.
Defined.




(* ================================================================== *)
(** * Further properties: the renderer *)
(* ================================================================== *)

Lemma substring_prefix (m suffix text : jsstring) :
  substring (m ++ suffix) text -> substring m text.
Proof.
  intros [pre [post E]]. exists pre, (suffix ++ post).
  rewrite E, <- app_assoc. reflexivity.
Qed.

(** X11. The test for raw markup comes down to its first marker: a text is
    an HTML response exactly when it contains the first, shortest marker,
    the opening of a [div] whose class starts with [nexchat-]; the two longer
    markers never decide anything. *)
Theorem isHTMLResponse_first_marker (text : jsstring) :
  isHTMLResponse text = includes text (lit "<div class=" ++ dq ++ lit "nexchat-")
  /\ (isHTMLResponse text = true <->
      substring (lit "<div class=" ++ dq ++ lit "nexchat-") text).
Proof.
  assert (isHTMLResponse text
          = includes text (lit "<div class=" ++ dq ++ lit "nexchat-")) as E.
  { unfold isHTMLResponse, containerMarkers. cbv beta iota delta [existsb].
    destruct (includes text (lit "<div class=" ++ dq ++ lit "nexchat-"))
      eqn:I; [reflexivity|].
    apply includes_false_iff in I.
    assert (forall suffix,
              includes text
                ((lit "<div class=" ++ dq ++ lit "nexchat-") ++ suffix)
              = false) as Hno.
    { intros suffix. apply includes_false_iff. intros H. apply I.
      exact (substring_prefix _ suffix text H). }
    pose proof (Hno (lit "options-container" ++ dq ++ lit ">")) as H2.
    pose proof (Hno (lit "field-container" ++ dq ++ lit ">")) as H3.
    change (includes text
              (lit "<div class=" ++ dq ++ lit "nexchat-options-container"
               ++ dq ++ lit ">") = false) in H2.
    change (includes text
              (lit "<div class=" ++ dq ++ lit "nexchat-field-container"
               ++ dq ++ lit ">") = false) in H3.
    rewrite H2, H3. reflexivity. }
  split; [exact E|]. rewrite E. apply includes_true_iff.
Qed.

Lemma escapeChar_shape (c : char16) :
  (c = 38%N /\ escapeChar c = [38; 97; 109; 112; 59]%N)
  \/ (c = 160%N /\ escapeChar c = [38; 110; 98; 115; 112; 59]%N)
  \/ (c = 60%N /\ escapeChar c = [38; 108; 116; 59]%N)
  \/ (c = 62%N /\ escapeChar c = [38; 103; 116; 59]%N)
  \/ ((c <> 38%N /\ c <> 160%N /\ c <> 60%N /\ c <> 62%N)
      /\ escapeChar c = [c]).
Proof.
  unfold escapeChar.
  destruct (N.eqb_spec c 38); [left; auto|].
  destruct (N.eqb_spec c 160); [right; left; auto|].
  destruct (N.eqb_spec c 60); [right; right; left; auto|].
  destruct (N.eqb_spec c 62); [right; right; right; left; auto|].
  right; right; right; right. auto.
Qed.

Ltac escape_shape_in c H :=
  destruct (escapeChar_shape c) as [[? ?] | [[? ?] | [[? ?] | [[? ?] |
                                    [[? [? [? ?]]] ?]]]]];
  match goal with
  | E : escapeChar c = _ |- _ => rewrite E in H; clear E
  end.

(** X12. Escaping loses nothing: two texts with the same escaped form are
    the same text. *)
Theorem escapeHtml_injective (a b : jsstring) :
  escapeHtml a = escapeHtml b -> a = b.
Proof.
  revert b. induction a as [|x a IH]; intros [|y b] H.
  - reflexivity.
  - exfalso. simpl in H.
    destruct (escapeChar_shape y) as [[? E] | [[? E] | [[? E] | [[? E] |
                                      [? E]]]]]; rewrite E in H;
      discriminate H.
  - exfalso. simpl in H.
    destruct (escapeChar_shape x) as [[? E] | [[? E] | [[? E] | [[? E] |
                                      [? E]]]]]; rewrite E in H;
      discriminate H.
  - unfold escapeHtml in H. simpl in H. fold (escapeHtml a) in H.
    fold (escapeHtml b) in H.
    escape_shape_in x H; escape_shape_in y H; simpl in H;
      try discriminate H; injection H; intros; subst; try congruence;
      f_equal; apply IH; assumption.
Qed.

Lemma escapeHtml_injective_witness :
  escapeHtml (lit "a<b") = escapeHtml (lit "a" ++ [60%N] ++ lit "b")
  /\ lit "a<b" = lit "a" ++ [60%N] ++ lit "b".
Proof.
  split; [reflexivity|].
  exact (escapeHtml_injective (lit "a<b") (lit "a" ++ [60%N] ++ lit "b")
           eq_refl).
Defined.

Lemma escapeHtml_length (t : jsstring) : length t <= length (escapeHtml t).
Proof.
  induction t as [|c t IH]; simpl; [lia|].
  rewrite length_app.
  destruct (escapeChar_shape c) as [[? E] | [[? E] | [[? E] | [[? E] |
                                    [? E]]]]]; rewrite E; simpl; lia.
Qed.

(** X13. Escaping changes a text exactly when the text contains an
    ampersand, an angle bracket or a no-break space. *)
Theorem escapeHtml_fixes_safe_text (t : jsstring) :
  escapeHtml t = t <->
  Forall (fun c => c <> 38%N /\ c <> 160%N /\ c <> 60%N /\ c <> 62%N) t.
Proof.
  split.
  - induction t as [|c t IH]; intros H; [constructor|].
    unfold escapeHtml in H. simpl in H. fold (escapeHtml t) in H.
    pose proof (escapeHtml_length t) as L.
    destruct (escapeChar_shape c) as [[Hc E] | [[Hc E] | [[Hc E] | [[Hc E] |
                                      [Hc E]]]]]; rewrite E in H; simpl in H;
      try subst c; try discriminate H.
    + exfalso. injection H as Ht. rewrite <- Ht in L at 1.
      simpl in L. lia.
    + injection H as Ht. constructor; [exact Hc | apply IH; exact Ht].
  - induction 1 as [|c t [H1 [H2 [H3 H4]]] _ IH]; [reflexivity|].
    unfold escapeHtml in *. simpl.
    rewrite (escapeChar_other c H1 H2 H3 H4), IH. reflexivity.
Qed.

Lemma escapeHtml_fixes_safe_text_witness :
  Forall (fun c => c <> 38%N /\ c <> 160%N /\ c <> 60%N /\ c <> 62%N)
    (lit "it's ok")
  /\ escapeHtml (lit "it's ok") = lit "it's ok".
Proof.
  assert (Forall (fun c => c <> 38%N /\ c <> 160%N /\ c <> 60%N /\ c <> 62%N)
            (lit "it's ok")) as H
    by (repeat constructor; discriminate).
  split; [exact H|].
  exact (proj2 (escapeHtml_fixes_safe_text (lit "it's ok")) H).
Defined.

(** X16. The earlier copy of [addMessage] in the file and the later one
    produce the same content except for a bot text that is classified as raw
    markup: the earlier copy escapes it into a paragraph, the later one
    mounts it as it is. *)
Theorem renderer_copies_agree (text sender : jsstring) :
  (renderKind text sender <> RawHtml ->
     messageContent_v1 text sender = messageContent text sender)
  /\ (renderKind text sender = RawHtml ->
     messageContent_v1 text sender = paragraph text
     /\ messageContent text sender = text).
Proof.
  unfold messageContent_v1, messageContent, renderKind, paragraph.
  destruct (isRoleSelection text && strictEq sender (lit "bot"));
    [split; [reflexivity | discriminate]|].
  destruct (isHTMLResponse text && strictEq sender (lit "bot"));
    split; intros H; try reflexivity; try discriminate; try congruence.
  split; reflexivity.
Qed.

Lemma renderer_copies_agree_witness :
  messageContent_v1 (lit "<div class=" ++ dq ++ lit "nexchat-x" ++ dq
                     ++ lit ">") (lit "bot")
  = lit "<p>&lt;div class=" ++ dq ++ lit "nexchat-x" ++ dq ++ lit "&gt;</p>".
Proof.
  exact (proj1 (proj2 (renderer_copies_agree
    (lit "<div class=" ++ dq ++ lit "nexchat-x" ++ dq ++ lit ">") (lit "bot"))
    eq_refl)).
Defined.

(* ================================================================== *)
(** * Further properties: the role-selection block *)
(* ================================================================== *)

Lemma replaceAllFrom_skip (m : jsstring -> option (jsstring * nat))
  (a b : jsstring) :
  replaceAllFrom m (length a) (a ++ b) = replaceAllFrom m 0 b.
Proof.
  induction a as [|c a IH]; simpl; [destruct b; reflexivity | exact IH].
Qed.

Lemma replaceAllFrom_inert (m : jsstring -> option (jsstring * nat))
  (a b : jsstring) :
  (forall c t, In c a -> m (c :: t) = None) ->
  replaceAllFrom m 0 (a ++ b) = a ++ replaceAllFrom m 0 b.
Proof.
  induction a as [|c a IH]; intros H; simpl; [reflexivity|].
  rewrite (H c (a ++ b)) by (left; reflexivity).
  rewrite IH; [reflexivity|]. intros x t Hx. apply H. right. exact Hx.
Qed.

Lemma replaceAll_inert (m : jsstring -> option (jsstring * nat))
  (a : jsstring) :
  (forall c t, In c a -> m (c :: t) = None) -> replaceAll m a = a.
Proof.
  intros H. unfold replaceAll.
  rewrite <- (app_nil_r a) at 1. rewrite (replaceAllFrom_inert m a [] H).
  apply app_nil_r.
Qed.

Lemma replaceAllFrom_match (m : jsstring -> option (jsstring * nat))
  (c : char16) (line rest repl : jsstring) :
  m ((c :: line) ++ rest) = Some (repl, length (c :: line)) ->
  replaceAllFrom m 0 ((c :: line) ++ rest)
  = repl ++ replaceAllFrom m 0 rest.
Proof.
  intros H. simpl in *. rewrite H. simpl. rewrite Nat.sub_0_r.
  rewrite replaceAllFrom_skip. reflexivity.
Qed.

Lemma startsWith_cons (k c : char16) (p t : jsstring) :
  startsWith (k :: p) (c :: t) = (k =? c)%N && startsWith p t.
Proof. reflexivity. Qed.

Lemma startsWith_other (k c : char16) (p t : jsstring) :
  c <> k -> startsWith (k :: p) (c :: t) = false.
Proof.
  intros H. rewrite startsWith_cons.
  destruct (N.eqb_spec k c); [congruence | reflexivity].
Qed.

Lemma startsWith_app (p z : jsstring) : startsWith p (p ++ z) = true.
Proof. apply startsWith_true_iff. exists z. reflexivity. Qed.

Lemma startsWith_backtick_other (c : char16) (t : jsstring) :
  c <> 96%N -> startsWith backtick (c :: t) = false.
Proof. intros H. unfold backtick. apply startsWith_other. exact H. Qed.

Lemma startsWith_stars_other (c : char16) (t : jsstring) :
  c <> 42%N -> startsWith stars (c :: t) = false.
Proof.
  intros H. change stars with [42%N; 42%N]. apply startsWith_other. exact H.
Qed.

Lemma matchRoleLine_head (c : char16) (t : jsstring) :
  c <> 96%N -> matchRoleLine (c :: t) = None.
Proof.
  intros H. unfold matchRoleLine.
  rewrite (startsWith_backtick_other c t H). reflexivity.
Qed.

Lemma matchCode_head (c : char16) (t : jsstring) :
  c <> 96%N -> matchCode (c :: t) = None.
Proof.
  intros H. unfold matchCode.
  rewrite (startsWith_backtick_other c t H). reflexivity.
Qed.

Lemma matchBold_head (c : char16) (t : jsstring) :
  c <> 42%N -> matchBold (c :: t) = None.
Proof.
  intros H. unfold matchBold.
  rewrite (startsWith_stars_other c t H). reflexivity.
Qed.

Lemma matchNewline_cons (c : char16) (t : jsstring) :
  matchNewline (c :: t)
  = if (c =? 10)%N then Some (lit "<br>", 1) else None.
Proof.
  unfold matchNewline. rewrite startsWith_cons, andb_true_r, N.eqb_sym.
  reflexivity.
Qed.

Lemma replaceAll_newline (s : jsstring) :
  replaceAll matchNewline s = flat_map feedToBreak s.
Proof.
  unfold replaceAll. induction s as [|c s IH]; [reflexivity|].
  change (flat_map feedToBreak (c :: s))
    with (feedToBreak c ++ flat_map feedToBreak s).
  rewrite <- IH. cbn [replaceAllFrom]. rewrite matchNewline_cons.
  unfold feedToBreak. destruct (c =? 10)%N; reflexivity.
Qed.

Lemma inert_spec (c : char16) :
  inert c = true <-> c <> 96%N /\ c <> 42%N /\ c <> 10%N.
Proof.
  unfold inert. rewrite negb_true_iff, !orb_false_iff, !N.eqb_neq. tauto.
Qed.

Lemma inertOrFeed_spec (c : char16) :
  inertOrFeed c = true <-> c <> 96%N /\ c <> 42%N.
Proof.
  unfold inertOrFeed. rewrite negb_true_iff, !orb_false_iff, !N.eqb_neq.
  tauto.
Qed.

Lemma inert_inertOrFeed (s : jsstring) :
  forallb inert s = true -> forallb inertOrFeed s = true.
Proof.
  rewrite !forallb_forall. intros H c Hc.
  apply inertOrFeed_spec. apply H, inert_spec in Hc. tauto.
Qed.

Lemma digits_inert (n : jsstring) :
  Forall (fun c => isDigit c = true) n -> forallb inert n = true.
Proof.
  intros H. apply forallb_forall. intros c Hc.
  rewrite Forall_forall in H. specialize (H c Hc).
  unfold isDigit in H. apply andb_true_iff in H.
  rewrite !N.leb_le in H. apply inert_spec. lia.
Qed.

Lemma feedToBreak_inert (s : jsstring) :
  forallb inert s = true -> flat_map feedToBreak s = s.
Proof.
  induction s as [|c s IH]; [reflexivity|]. intros H.
  change (forallb inert (c :: s)) with (inert c && forallb inert s) in H.
  apply andb_true_iff in H. destruct H as [Hc Hs].
  change (flat_map feedToBreak (c :: s))
    with (feedToBreak c ++ flat_map feedToBreak s).
  rewrite (IH Hs). apply inert_spec in Hc. unfold feedToBreak.
  destruct (N.eqb_spec c 10); [tauto | reflexivity].
Qed.

Lemma roleButtonMarkup_inert (n name : jsstring) :
  forallb inert n = true -> forallb inert name = true ->
  forallb inert (roleButtonMarkup n name) = true.
Proof.
  intros Hn Hname. unfold roleButtonMarkup.
  rewrite !forallb_app, Hn, Hname. reflexivity.
Qed.

Lemma span_app (f : char16 -> bool) (a rest : jsstring) :
  forallb f a = true ->
  match rest with [] => True | c :: _ => f c = false end ->
  span f (a ++ rest) = (a, rest).
Proof.
  intros Ha Hrest. induction a as [|c a IH]; simpl in *.
  - destruct rest as [|c r]; [reflexivity|]. simpl. rewrite Hrest.
    reflexivity.
  - apply andb_true_iff in Ha. destruct Ha as [Hc Ha].
    rewrite Hc, (IH Ha). reflexivity.
Qed.

Lemma lazyUntil_unfold (stop s : jsstring) :
  lazyUntil stop s =
  if startsWith stop s then Some ([], skipn (length stop) s)
  else
    match s with
    | [] => None
    | c :: t =>
        if isLineTerminator c then None
        else
          match lazyUntil stop t with
          | Some (cap, rest) => Some (c :: cap, rest)
          | None => None
          end
    end.
Proof. destruct s; reflexivity. Qed.

Lemma lazyUntil_stars (name post : jsstring) :
  forallb inert name = true ->
  forallb (fun c => negb (isLineTerminator c)) name = true ->
  lazyUntil stars (name ++ stars ++ post) = Some (name, post).
Proof.
  induction name as [|c name IH]; intros Hi Hl.
  - reflexivity.
  - simpl in Hi, Hl. apply andb_true_iff in Hi. destruct Hi as [Hc Hi].
    apply andb_true_iff in Hl. destruct Hl as [Hlc Hl].
    apply inert_spec in Hc. apply negb_true_iff in Hlc.
    rewrite lazyUntil_unfold.
    change ((c :: name) ++ stars ++ post) with (c :: name ++ stars ++ post).
    assert (startsWith stars (c :: name ++ stars ++ post) = false) as S.
    { apply startsWith_stars_other. tauto. }
    rewrite S, Hlc, (IH Hi Hl). reflexivity.
Qed.

Lemma blank_forallb (s : jsstring) : blank s -> forallb isWhiteSpace s = true.
Proof.
  intros H. apply forallb_forall. apply Forall_forall. exact H.
Qed.

(** The first expression matches a well-formed role line as a whole. *)
Lemma matchRoleLine_wellFormed (l : RoleLine) (rest : jsstring) :
  wellFormedRoleLine l ->
  matchRoleLine
    ((backtick ++ number l ++ backtick ++ gap l ++ stars ++ roleName l
      ++ stars) ++ rest)
  = Some (roleButtonMarkup (number l) (roleName l),
          length (backtick ++ number l ++ backtick ++ gap l ++ stars
                  ++ roleName l ++ stars)).
Proof.
  intros [Hn [Hg [Hb [Hi [Hl _]]]]].
  apply allDigits_true_iff in Hn. destruct Hn as [Hne Hd].
  assert (truthy (number l) = true) as Tn
    by (destruct (number l); [contradiction Hne; reflexivity | reflexivity]).
  assert (truthy (gap l) = true) as Tg
    by (destruct (gap l); [contradiction Hg; reflexivity | reflexivity]).
  replace ((backtick ++ number l ++ backtick ++ gap l ++ stars ++ roleName l
            ++ stars) ++ rest)
    with (backtick
          ++ (number l
              ++ (backtick
                  ++ (gap l ++ (stars ++ (roleName l ++ stars ++ rest))))))
    by (rewrite <- !app_assoc; reflexivity).
  unfold matchRoleLine.
  rewrite startsWith_app.
  change (skipn 1 (backtick ++ ?x)) with x.
  rewrite span_app;
    [| apply forallb_forall; apply Forall_forall; exact Hd | reflexivity].
  rewrite Tn, startsWith_app. cbn [andb].
  change (skipn 1 (backtick ++ ?x)) with x.
  rewrite span_app; [| apply blank_forallb; exact Hb | reflexivity].
  rewrite Tg, startsWith_app. cbn [andb].
  change (skipn 2 (stars ++ ?x)) with x.
  rewrite (lazyUntil_stars (roleName l) rest Hi Hl).
  f_equal. f_equal. unfold backtick, stars.
  rewrite !length_app. simpl. lia.
Qed.

Lemma replaceAllFrom_line (m : jsstring -> option (jsstring * nat))
  (line rest repl : jsstring) :
  line <> [] -> m (line ++ rest) = Some (repl, length line) ->
  replaceAllFrom m 0 (line ++ rest) = repl ++ replaceAllFrom m 0 rest.
Proof.
  destruct line as [|c line]; [intros H; contradiction H; reflexivity|].
  intros _ H. apply replaceAllFrom_match. exact H.
Qed.

Lemma wellFormed_markup_inert (l : RoleLine) :
  wellFormedRoleLine l ->
  forallb inert (roleButtonMarkup (number l) (roleName l)) = true.
Proof.
  intros [Hn [_ [_ [Hi _]]]]. apply roleButtonMarkup_inert; [|exact Hi].
  apply digits_inert. apply allDigits_true_iff in Hn. tauto.
Qed.

(** What the first conversion leaves of a prompt made of role lines. *)
Lemma roleLines_first_pass (ls : list RoleLine) :
  Forall wellFormedRoleLine ls ->
  replaceAllFrom matchRoleLine 0 (flat_map roleLineSource ls)
  = flat_map (fun l => roleButtonMarkup (number l) (roleName l) ++ trailer l)
      ls.
Proof.
  induction 1 as [|l ls Hl _ IH]; [reflexivity|].
  cbn [flat_map]. unfold roleLineSource at 1.
  replace ((backtick ++ number l ++ backtick ++ gap l ++ stars ++ roleName l
            ++ stars ++ trailer l) ++ flat_map roleLineSource ls)
    with ((backtick ++ number l ++ backtick ++ gap l ++ stars ++ roleName l
           ++ stars) ++ (trailer l ++ flat_map roleLineSource ls))
    by (rewrite <- !app_assoc; reflexivity).
  rewrite (replaceAllFrom_line matchRoleLine _ _
             (roleButtonMarkup (number l) (roleName l)));
    [| discriminate | apply matchRoleLine_wellFormed; exact Hl].
  rewrite replaceAllFrom_inert, IH, <- app_assoc; [reflexivity|].
  intros c t Hc. apply matchRoleLine_head.
  destruct Hl as [_ [_ [_ [_ [_ Ht]]]]].
  rewrite forallb_forall in Ht. apply Ht, inertOrFeed_spec in Hc. tauto.
Qed.

Lemma roleLines_first_pass_quiet (ls : list RoleLine) :
  Forall wellFormedRoleLine ls ->
  forallb inertOrFeed
    (flat_map (fun l => roleButtonMarkup (number l) (roleName l) ++ trailer l)
       ls) = true.
Proof.
  induction 1 as [|l ls Hl _ IH]; [reflexivity|].
  cbn [flat_map]. rewrite !forallb_app, IH.
  rewrite (inert_inertOrFeed _ (wellFormed_markup_inert l Hl)).
  destruct Hl as [_ [_ [_ [_ [_ Ht]]]]]. rewrite Ht. reflexivity.
Qed.

Lemma roleLines_last_pass (ls : list RoleLine) :
  Forall wellFormedRoleLine ls ->
  flat_map feedToBreak
    (flat_map (fun l => roleButtonMarkup (number l) (roleName l) ++ trailer l)
       ls)
  = flat_map roleLineRendered ls.
Proof.
  induction 1 as [|l ls Hl _ IH]; [reflexivity|].
  cbn [flat_map]. rewrite !flat_map_app, IH. unfold roleLineRendered.
  rewrite (feedToBreak_inert _ (wellFormed_markup_inert l Hl)).
  rewrite <- app_assoc. reflexivity.
Qed.

Lemma quiet_passes (s : jsstring) :
  forallb inertOrFeed s = true ->
  replaceAll matchNewline (replaceAll matchCode (replaceAll matchBold s))
  = flat_map feedToBreak s.
Proof.
  intros H. rewrite forallb_forall in H.
  rewrite (replaceAll_inert matchBold s), (replaceAll_inert matchCode s).
  - apply replaceAll_newline.
  - intros c t Hc. apply matchCode_head.
    apply H, inertOrFeed_spec in Hc. tauto.
  - intros c t Hc. apply matchBold_head.
    apply H, inertOrFeed_spec in Hc. tauto.
Qed.

(** X14. A prompt made of a heading and of role lines
    [`number` **roleName**], none of whose parts carries further markdown, is
    rendered as the heading followed, for each line, by a button that carries
    the number (as [data-number], in its inline [onclick] and as its label)
    and the role name in bold; line feeds become [<br>]; the action row
    closes the block.  When the heading contains the role-selection marker
    this is the content of the bot message. *)
Theorem role_lines_become_buttons (pre : jsstring) (ls : list RoleLine) :
  forallb inertOrFeed pre = true -> Forall wellFormedRoleLine ls ->
  let text := pre ++ flat_map roleLineSource ls in
  let block :=
    lit "<div class=" ++ dq ++ lit "role-selection-content" ++ dq ++ lit ">"
    ++ (flat_map feedToBreak pre ++ flat_map roleLineRendered ls)
    ++ actionButtons ++ lit "</div>" in
  formatRoleSelectionMessage text = block
  /\ (substring roleMarker pre -> ls <> [] ->
      messageContent text (lit "bot") = block).
Proof.
  intros Hpre Hls text block.
  assert (formatRoleSelectionMessage text = block) as E.
  { unfold formatRoleSelectionMessage, block, text.
    assert (replaceAll matchRoleLine (pre ++ flat_map roleLineSource ls)
            = pre ++ flat_map (fun l => roleButtonMarkup (number l)
                                          (roleName l) ++ trailer l) ls)
      as P1.
    { unfold replaceAll. rewrite replaceAllFrom_inert.
      - rewrite (roleLines_first_pass ls Hls). reflexivity.
      - intros c t Hc. apply matchRoleLine_head.
        rewrite forallb_forall in Hpre.
        apply Hpre, inertOrFeed_spec in Hc. tauto. }
    rewrite P1, quiet_passes.
    - rewrite flat_map_app, (roleLines_last_pass ls Hls). reflexivity.
    - rewrite forallb_app, Hpre, (roleLines_first_pass_quiet ls Hls).
      reflexivity. }
  split; [exact E|].
  intros Hm Hne. rewrite <- E.
  unfold messageContent. rewrite renderKind_bot.
  replace (isRoleSelection text) with true; [reflexivity|].
  symmetry. apply isRoleSelection_true_iff. split.
  - destruct Hm as [a [b Hm]].
    exists a, (b ++ flat_map roleLineSource ls).
    unfold text. rewrite Hm, <- !app_assoc. reflexivity.
  - destruct ls as [|l ls']; [contradiction Hne; reflexivity|].
    exists pre, ((number l ++ backtick ++ gap l ++ stars ++ roleName l ++ stars
                  ++ trailer l) ++ flat_map roleLineSource ls').
    unfold text. cbn [flat_map]. unfold roleLineSource at 1.
    rewrite <- !app_assoc. reflexivity.
Qed.

Lemma role_lines_become_buttons_witness :
  messageContent
    (lit "Select Role(s) for Ann:" ++ nl ++ lit "`1` **Sales User**" ++ nl
     ++ lit "`12`  **Accounts Manager**") (lit "bot")
  = lit "<div class=" ++ dq ++ lit "role-selection-content" ++ dq ++ lit ">"
    ++ (lit "Select Role(s) for Ann:<br>"
        ++ roleButtonMarkup (lit "1") (lit "Sales User") ++ lit "<br>"
        ++ roleButtonMarkup (lit "12") (lit "Accounts Manager"))
    ++ actionButtons ++ lit "</div>".
Proof.
  refine (proj2 (role_lines_become_buttons
                   (lit "Select Role(s) for Ann:" ++ nl) twoRoles _ _) _ _).
  - reflexivity.
  - repeat constructor; try reflexivity; discriminate.
  - exists [], (lit " Ann:" ++ nl). reflexivity.
  - discriminate.
Defined.

(** X15. The role-selection block does not escape: a text without
    backticks and stars is mounted as it is, angle brackets and ampersands
    included, with nothing changed but its line feeds (each becomes
    [<br>]). *)
Theorem role_block_mounts_text_unescaped (text : jsstring) :
  forallb inertOrFeed text = true ->
  formatRoleSelectionMessage text
  = lit "<div class=" ++ dq ++ lit "role-selection-content" ++ dq ++ lit ">"
    ++ flat_map feedToBreak text ++ actionButtons ++ lit "</div>"
  /\ (forallb inert text = true -> flat_map feedToBreak text = text).
Proof.
  intros H. split; [|apply feedToBreak_inert].
  unfold formatRoleSelectionMessage.
  rewrite (replaceAll_inert matchRoleLine text), (quiet_passes text H);
    [reflexivity|].
  intros c t Hc. apply matchRoleLine_head.
  rewrite forallb_forall in H. apply H, inertOrFeed_spec in Hc. tauto.
Qed.

Lemma role_block_mounts_text_unescaped_witness :
  formatRoleSelectionMessage (lit "<img src=x onerror=alert(1)> & more")
  = lit "<div class=" ++ dq ++ lit "role-selection-content" ++ dq ++ lit ">"
    ++ lit "<img src=x onerror=alert(1)> & more" ++ actionButtons
    ++ lit "</div>".
Proof.
  exact (proj1 (role_block_mounts_text_unescaped
                  (lit "<img src=x onerror=alert(1)> & more") eq_refl)).
Defined.

(* ================================================================== *)
(** * Further properties: keyboard and filter *)
(* ================================================================== *)

Lemma indexIn_absent (x : nat) (l : list nat) :
  ~ In x l -> indexIn x l = (-1)%Z.
Proof.
  induction l as [|y l IH]; intros H; [reflexivity|]. simpl.
  destruct (Nat.eqb_spec x y) as [E | _];
    [exfalso; apply H; left; symmetry; exact E|].
  rewrite IH by (intros Hin; apply H; right; exact Hin). reflexivity.
Qed.

Lemma arrowTarget_unfocused (s : State) :
  visibleOptions s <> [] -> currentIndexOf s = (-1)%Z ->
  arrowTarget ArrowDown s = nth 0 (visibleOptions s) 0
  /\ arrowTarget ArrowUp s
     = nth (length (visibleOptions s) - 1) (visibleOptions s) 0.
Proof.
  intros Hvis Hc. unfold arrowTarget. rewrite Hc. split.
  - destruct (visibleOptions s); [contradiction | reflexivity].
  - simpl. f_equal. lia.
Qed.

(** X17. On a focused visible item the two arrow keys undo each other:
    Down then Up, and Up then Down, bring the focus back to the item it was
    on. *)
Theorem arrows_undo_each_other (s : State) (j : nat) :
  isOpen s = true -> j < length (visibleOptions s) ->
  focusedOptions s = [nth j (visibleOptions s) 0] ->
  focusedOptions
    (after (keydownNav ArrowUp (after (keydownNav ArrowDown s))))
  = focusedOptions s
  /\ focusedOptions
       (after (keydownNav ArrowDown (after (keydownNav ArrowUp s))))
     = focusedOptions s.
Proof.
  intros Hopen Hj Hf.
  assert (visibleOptions s <> []) as Hvis
    by (destruct (visibleOptions s); [simpl in Hj; lia | discriminate]).
  set (N := length (visibleOptions s)) in *.
  assert (forall key j', isArrow key -> j' < N ->
            arrowTarget key s = nth j' (visibleOptions s) 0 ->
            let s1 := after (keydownNav key s) in
            isOpen s1 = true /\ visibleOptions s1 = visibleOptions s
            /\ focusedOptions s1 = [nth j' (visibleOptions s1) 0]) as Hstep.
  { intros key j' Hkey Hj' Ht s1.
    destruct (arrow_result key s Hkey Hopen Hvis) as [F [_ [V [O _]]]].
    fold s1 in F, V, O. rewrite V, F, Ht. auto. }
  split.
  - destruct (Hstep ArrowDown (S j mod N) (or_introl eq_refl))
      as [O [V F]];
      [apply Nat.mod_upper_bound; lia
      | apply arrowTarget_down_single; assumption |].
    set (s1 := after (keydownNav ArrowDown s)) in *.
    assert (visibleOptions s1 <> []) as Hvis1 by (rewrite V; exact Hvis).
    destruct (arrow_result ArrowUp s1 (or_intror eq_refl) O Hvis1) as [F2 _].
    rewrite F2, Hf.
    rewrite (arrowTarget_up_single s1 (S j mod N));
      [| rewrite V; apply Nat.mod_upper_bound; lia | exact F].
    rewrite V. fold N. f_equal. f_equal.
    destruct (Nat.eq_dec (S j) N) as [E | E].
    + rewrite E, Nat.Div0.mod_same. simpl. lia.
    + rewrite Nat.mod_small by lia. simpl. lia.
  - destruct (Hstep ArrowUp (if j =? 0 then N - 1 else j - 1)
                (or_intror eq_refl)) as [O [V F]];
      [destruct (j =? 0); lia
      | apply arrowTarget_up_single; assumption |].
    set (s1 := after (keydownNav ArrowUp s)) in *.
    assert (visibleOptions s1 <> []) as Hvis1 by (rewrite V; exact Hvis).
    destruct (arrow_result ArrowDown s1 (or_introl eq_refl) O Hvis1)
      as [F2 _].
    rewrite F2, Hf.
    rewrite (arrowTarget_down_single s1 (if j =? 0 then N - 1 else j - 1));
      [| rewrite V; fold N; destruct (j =? 0); lia | exact F].
    rewrite V. fold N. f_equal. f_equal.
    destruct (Nat.eqb_spec j 0) as [-> | Hne].
    + replace (S (N - 1)) with N by lia. apply Nat.Div0.mod_same.
    + replace (S (j - 1)) with j by lia. apply Nat.mod_small. lia.
Qed.

Lemma arrows_undo_each_other_witness :
  focusedOptions
    (after (keydownNav ArrowUp
       (after (keydownNav ArrowDown
          (after (keydownNav ArrowDown sampleState))))))
  = [0].
Proof.
  exact (proj1 (arrows_undo_each_other
                  (after (keydownNav ArrowDown sampleState)) 0
                  eq_refl (Nat.lt_0_succ 1) eq_refl)).
Defined.

(** X18. A focus mark on an item that is not visible (hidden by a search)
    counts as no focus: Down then focuses the first visible item, Up the
    last, and the hidden item loses its mark. *)
Theorem hidden_focus_counts_as_none (s : State) (f : nat) (fs : list nat) :
  isOpen s = true -> visibleOptions s <> [] ->
  focusedOptions s = f :: fs -> ~ In f (visibleOptions s) ->
  focusedOptions (after (keydownNav ArrowDown s))
  = [nth 0 (visibleOptions s) 0]
  /\ focusedOptions (after (keydownNav ArrowUp s))
     = [nth (length (visibleOptions s) - 1) (visibleOptions s) 0]
  /\ ~ In f (focusedOptions (after (keydownNav ArrowDown s)))
  /\ ~ In f (focusedOptions (after (keydownNav ArrowUp s))).
Proof.
  intros Hopen Hvis Hf Hnot.
  assert (currentIndexOf s = (-1)%Z) as Hc
    by (unfold currentIndexOf; rewrite Hf; apply indexIn_absent; exact Hnot).
  destruct (arrowTarget_unfocused s Hvis Hc) as [Td Tu].
  destruct (arrow_result ArrowDown s (or_introl eq_refl) Hopen Hvis)
    as [Fd [Id _]].
  destruct (arrow_result ArrowUp s (or_intror eq_refl) Hopen Hvis)
    as [Fu [Iu _]].
  rewrite Fd, Fu, <- Td, <- Tu. repeat split.
  - intros [E | []]. rewrite E in Id. contradiction.
  - intros [E | []]. rewrite E in Iu. contradiction.
Qed.

Lemma hidden_focus_counts_as_none_witness :
  (focusedOptions hiddenFocusState = [0]
   /\ visibleOptions hiddenFocusState = [1; 2])
  /\ focusedOptions (after (keydownNav ArrowDown hiddenFocusState)) = [1]
  /\ focusedOptions (after (keydownNav ArrowUp hiddenFocusState)) = [2].
Proof.
  split; [split; reflexivity|].
  assert (visibleOptions hiddenFocusState <> []) as Hvis by discriminate.
  assert (~ In 0 (visibleOptions hiddenFocusState)) as Hnot
    by (intros [E | [E | []]]; discriminate E).
  destruct (hidden_focus_counts_as_none hiddenFocusState 0 []
              eq_refl Hvis eq_refl Hnot) as [D [U _]].
  split; [exact D | exact U].
Defined.






(** X20. With the widget open and an option visible, Escape removes every
    focus mark and nothing else: what is visible, the field, the messages
    and the transport stay as they are, the key keeps its default action,
    and the next Down starts again from the first visible item. *)
Theorem escape_clears_focus (s : State) :
  isOpen s = true -> visibleOptions s <> [] ->
  let s' := after (keydownNav Escape s) in
  focusedOptions s' = []
  /\ visibleOptions s' = visibleOptions s
  /\ map (setFocused false) (optionItems s')
     = map (setFocused false) (optionItems s)
  /\ inputValue s' = inputValue s /\ chrome s' = chrome s
  /\ autoSubmitTimers s' = autoSubmitTimers s
  /\ defaultPrevented (keydownNav Escape s) = false
  /\ clicked (keydownNav Escape s) = []
  /\ focusedOptions (after (keydownNav ArrowDown s'))
     = [nth 0 (visibleOptions s) 0].
Proof.
  intros Hopen Hvis s'.
  assert (keydownNav Escape s =
          mkKeyEffect
            (set_options (clearFocus (optionItems s)) (sections s) s)
            false [] None) as E.
  { unfold keydownNav. rewrite Hopen. simpl negb. cbv iota.
    destruct (visibleOptions s); [contradiction | reflexivity]. }
  assert (focusedOptions s' = []) as F
    by (unfold s'; rewrite E; apply positionsFrom_clear_focused).
  assert (visibleOptions s' = visibleOptions s) as V.
  { unfold s'. rewrite E. unfold visibleOptions. simpl.
    rewrite positionsFrom_clear_displayed. reflexivity. }
  assert (isOpen s' = true) as O by (unfold s'; rewrite E; exact Hopen).
  split; [exact F|]. split; [exact V|].
  split.
  { unfold s'. rewrite E. simpl. unfold clearFocus. rewrite map_map.
    apply map_ext. intros it. reflexivity. }
  unfold s' at 1 2 3. rewrite E. simpl.
  repeat (split; [reflexivity|]).
  assert (visibleOptions s' <> []) as Hvis' by (rewrite V; exact Hvis).
  destruct (arrow_result ArrowDown s' (or_introl eq_refl) O Hvis')
    as [Fd _].
  rewrite Fd, (arrowTarget_down_none s' Hvis' F), V. reflexivity.
Qed.

Lemma escape_clears_focus_witness :
  focusedOptions
    (after (keydownNav Escape (after (keydownNav ArrowUp sampleState))))
  = [].
Proof.
  assert (visibleOptions (after (keydownNav ArrowUp sampleState)) <> [])
    as Hvis by discriminate.
  exact (proj1 (escape_clears_focus
                  (after (keydownNav ArrowUp sampleState)) eq_refl Hvis)).
Defined.

Lemma positionsFrom_setDisplayed_focused (k : nat) (g : OptionItem -> bool)
  (l : list OptionItem) :
  positionsFrom k focused (map (fun it => setDisplayed (g it) it) l)
  = positionsFrom k focused l.
Proof.
  revert k. induction l as [|a l IH]; intros k; simpl; [reflexivity|].
  rewrite IH. reflexivity.
Qed.

(** X21. The search box decides afresh at each input: what is displayed
    after a search depends on the latest query only, not on the searches
    before it, and repeating a search changes nothing.  A search never
    collapses a section and never moves or removes a focus mark, the field,
    the messages or the transport. *)
Theorem filter_latest_query_decides (toLowerCase : jsstring -> jsstring)
  (q1 q2 : jsstring) (s : State) :
  optionItems (filterOptions toLowerCase q2 (filterOptions toLowerCase q1 s))
  = optionItems (filterOptions toLowerCase q2 s)
  /\ filterOptions toLowerCase q2 (filterOptions toLowerCase q2 s)
     = filterOptions toLowerCase q2 s
  /\ (forall i, nth_error (sections s) i = Some true ->
        nth_error (sections (filterOptions toLowerCase q2 s)) i = Some true)
  /\ focusedOptions (filterOptions toLowerCase q2 s) = focusedOptions s
  /\ inputValue (filterOptions toLowerCase q2 s) = inputValue s
  /\ chrome (filterOptions toLowerCase q2 s) = chrome s.
Proof.
  assert (forall q q' l,
            map (fun it => setDisplayed
                             (matchesQuery toLowerCase (toLowerCase q) it) it)
              (map (fun it => setDisplayed
                                (matchesQuery toLowerCase (toLowerCase q') it)
                                it) l)
            = map (fun it => setDisplayed
                               (matchesQuery toLowerCase (toLowerCase q) it)
                               it) l) as Hitems.
  { intros q q' l. rewrite map_map. apply map_ext. intros it. reflexivity. }
  split; [apply Hitems|].
  split.
  { unfold filterOptions, set_options. simpl. rewrite Hitems.
    destruct (truthy (trim q2)); [rewrite map_map|]; reflexivity. }
  split.
  { intros i Hi. unfold filterOptions. simpl.
    destruct (truthy (trim q2)); [|exact Hi].
    rewrite nth_error_map, Hi. reflexivity. }
  split; [|split; reflexivity].
  unfold focusedOptions, filterOptions. simpl.
  apply positionsFrom_setDisplayed_focused.
Qed.



(* ================================================================== *)
(** * Further properties: the page *)
(* ================================================================== *)

Lemma singleton_step (e : PageEvent) (p : Page) :
  singleton p -> singleton (pageStep e p).
Proof.
  unfold singleton. intros [L H]. destruct e; simpl.
  - unfold initializeNexchat. destruct (loggedIn p); [|auto].
    destruct (windowNexchat p) as [w|] eqn:W; [rewrite W; auto|].
    destruct H as [-> ->]. simpl. split; [exact L|]. auto.
  - auto.
  - split; [simpl; lia | exact H].
Qed.

Lemma guest_step (e : PageEvent) (p : Page) :
  loggedIn p = false -> windowNexchat p = None -> constructed p = 0 ->
  loggedIn (pageStep e p) = false /\ windowNexchat (pageStep e p) = None
  /\ constructed (pageStep e p) = 0.
Proof.
  intros HL HW HC. destruct e; simpl.
  - unfold initializeNexchat. rewrite HL. auto.
  - auto.
  - auto.
Qed.

Lemma singleton_run (es : list PageEvent) (p : Page) :
  singleton p -> singleton (pageRun es p).
Proof.
  unfold pageRun. revert p. induction es as [|e es IH]; intros p H; simpl;
    [exact H|]. apply IH. apply singleton_step. exact H.
Qed.

Lemma guest_run (es : list PageEvent) (p : Page) :
  loggedIn p = false -> windowNexchat p = None -> constructed p = 0 ->
  windowNexchat (pageRun es p) = None /\ constructed (pageRun es p) = 0.
Proof.
  unfold pageRun. revert p.
  induction es as [|e es IH]; intros p H1 H2 H3; simpl; [auto|].
  destruct (guest_step e p H1 H2 H3) as [G1 [G2 G3]].
  apply IH; assumption.
Qed.

(** X23. Whatever mixture of page loads, page changes, destructions and
    listener registrations happens on a freshly loaded page, the page never
    carries more than one toggle button, one panel and one key listener, and
    the nodes are mounted exactly when the global handle names an instance
    (then they belong to that instance).  If nobody is logged in, or the
    guest is, no widget is ever built. *)
Theorem page_keeps_one_widget (user : option jsstring)
  (es : list PageEvent) :
  let p := pageRun es (freshPage user) in
  length (toggleButtons p) <= 1 /\ length (chatWidgets p) <= 1
  /\ length (keydownNav_listeners p) <= 1
  /\ (forall this, windowNexchat p = Some this ->
        toggleButtons p = [this] /\ chatWidgets p = [this])
  /\ (windowNexchat p = None -> toggleButtons p = [] /\ chatWidgets p = [])
  /\ (loggedIn (freshPage user) = false ->
      windowNexchat p = None /\ toggleButtons p = [] /\ constructed p = 0).
Proof.
  intros p.
  assert (singleton p) as [L H]
    by (apply singleton_run; unfold singleton; simpl; auto).
  assert (loggedIn (freshPage user) = false ->
          windowNexchat p = None /\ constructed p = 0) as Hguest
    by (intros HL; apply guest_run; [exact HL | reflexivity | reflexivity]).
  destruct (windowNexchat p) as [w|] eqn:W.
  - destruct H as [Ht [Hc _]]. rewrite Ht, Hc. simpl.
    split; [lia|]. split; [lia|]. split; [exact L|].
    split; [intros this E; injection E as <-; auto|].
    split; [discriminate|].
    intros HL. destruct (Hguest HL) as [E _]. discriminate E.
  - destruct H as [Ht Hc]. rewrite Ht, Hc. simpl.
    split; [lia|]. split; [lia|]. split; [exact L|].
    split; [discriminate|]. split; [auto|].
    intros HL. destruct (Hguest HL) as [_ E]. auto.
Qed.

Lemma page_keeps_one_widget_witness :
  loggedIn (freshPage (Some (lit "Guest"))) = false
  /\ toggleButtons
       (pageRun [PageReady; PageReady; PageDestroy; PageReady]
          (freshPage (Some (lit "Guest")))) = []
  /\ toggleButtons
       (pageRun [PageReady; PageReady; PageDestroy; PageReady]
          (freshPage (Some (lit "Administrator")))) = [1].
Proof.
  split; [reflexivity|].
  split; [|reflexivity].
  destruct (page_keeps_one_widget (Some (lit "Guest"))
              [PageReady; PageReady; PageDestroy; PageReady])
    as [_ [_ [_ [_ [_ G]]]]].
  exact (proj1 (proj2 (G eq_refl))).
Defined.

(* ================================================================== *)
(** * Further properties: the message list *)
(* ================================================================== *)

Lemma chrome_messages (s s' : State) :
  chrome s' = chrome s -> messages s' = messages s.
Proof.
  unfold chrome. intros E. injection E. intros. assumption.
Qed.

Lemma onSettled_appends_one (o : Settled) (s : State) :
  exists m, messages (onSettled o s) = messages s ++ [m].
Proof.
  destruct o as [[[[|c t]|]]|e]; simpl; eexists; reflexivity.
Qed.

Lemma step_appends (toLowerCase : jsstring -> jsstring) (e : Event)
  (s : State) :
  exists suffix,
    messages (step toLowerCase e s) = messages s ++ suffix
    /\ length suffix <= 1.
Proof.
  destruct (step_shape toLowerCase e s)
    as [E | [-> | [[s0 [E ->]] | [[r ->] | [m ->]]]]].
  - exists []. rewrite (chrome_messages s _ E), app_nil_r. auto.
  - exists []. rewrite app_nil_r. unfold toggleWidget.
    destruct (isOpen s); auto.
  - apply chrome_messages in E.
    destruct (handleUserInput_shape s0) as [-> | [_ [_ ->]]].
    + exists []. rewrite E, app_nil_r. auto.
    + eexists. simpl. rewrite E. split; [reflexivity | simpl; lia].
  - unfold deliver. destruct (inFlight s) as [|n].
    + exists []. rewrite app_nil_r. auto.
    + destruct (onSettled_appends_one (settle r)
                  (set_transport (calls s) n s)) as [m Hm].
      exists [m]. split; [exact Hm | simpl; lia].
  - eexists. simpl. split; [reflexivity | simpl; lia].
Qed.

(** X24. The message list is append-only: whatever events the widget
    handles, the messages that were mounted stay mounted, unchanged and in
    their order, and each event adds at most one message at the end. *)
Theorem messages_append_only (toLowerCase : jsstring -> jsstring)
  (es : list Event) (s : State) :
  exists suffix,
    messages (run toLowerCase es s) = messages s ++ suffix
    /\ length suffix <= length es.
Proof.
  revert s. induction es as [|e es IH]; intros s.
  - exists []. simpl. rewrite app_nil_r. auto.
  - destruct (step_appends toLowerCase e s) as [a [Ha La]].
    destruct (IH (step toLowerCase e s)) as [b [Hb Lb]].
    exists (a ++ b). change (run toLowerCase (e :: es) s)
      with (run toLowerCase es (step toLowerCase e s)).
    rewrite Hb, Ha, <- app_assoc, length_app. split; [reflexivity|].
    simpl. lia.
Qed.
